(** * mcp-loader: the hot-reload tool registry

    A shallow embedding of the loader script (the file that imports
    [McpServer], scans a tool directory, registers every exported tool
    definition with the server and reloads files when they change), and
    proofs of the properties its specification states.

    Layout:
    - strings: [endsWith] and the base name of a tool file;
    - JavaScript values as far as the loader inspects them, and
      [isToolDefinition];
    - the registry state, [unregisterFileTools], [registerTool],
      [loadToolFile], [loadAllTools];
    - the debounced watcher ([watch_callback], [timer_callback]), the
      timer callback await by await ([asyncStep]) and the start-up
      script ([main]);
    - a tool directory to run the loader on ([Scenario]);
    - the facts: file names, registry operations, loading, batches,
      the watcher, overlapping batches, the hot-reload switch, and the
      scenario. *)

From stdpp Require Import base strings gmap list pretty.

Local Open Scope Z_scope.
Local Set Warnings "-register-all".

(** ** Strings *)

(** [s.endsWith(suffix)]. *)
Fixpoint endsWith (s suffix : string) : bool :=
  String.eqb s suffix ||
  match s with
  | EmptyString => false
  | String _ s' => endsWith s' suffix
  end.

(** [file.replace(/\.(ts|js)$/, "")]: the pattern is anchored at the end
    of the string, so the only possible match is a final [.ts] or [.js],
    which is dropped. *)
Fixpoint stripExtension (file : string) : string :=
  if String.eqb file ".ts" || String.eqb file ".js" then EmptyString
  else match file with
       | EmptyString => EmptyString
       | String c rest => String c (stripExtension rest)
       end.

(** The guard at the top of [loadToolFile] and in the watch callback:
    [file.endsWith(".ts") || file.endsWith(".js")]. *)
Definition isToolFile (file : string) : bool :=
  endsWith file ".ts" || endsWith file ".js".

(** The names under which the exports of a file are registered:
    [baseName] for the default export, [`${baseName}_${key}`] for a
    named one. *)
Definition namedToolName (baseName key : string) : string :=
  baseName +:+ "_" +:+ key.

Definition toolName (baseName key : string) : string :=
  if String.eqb key "default" then baseName else namedToolName baseName key.

(** ** Failures and promises *)

(** A thrown object, as far as the loader reads it: [e.code] and
    [e.message]. *)
Record Error := mkError {
  code : option string;
  message : string
}.

(** A thrown value or rejection reason. JavaScript lets a program throw
    anything; [null] and [undefined] are the two reasons that have no
    properties at all: [e.code] does not read as [undefined] on them,
    the read itself throws. Every other reason is read through its
    [code] and [message]. *)
Inductive Reason : Type :=
| ThrownNull
| ThrownUndefined
| Thrown (e : Error).

Coercion Thrown : Error >-> Reason.

(** The outcome of awaiting a promise (or of a call that may throw). *)
Inductive settled (A : Type) : Type :=
| Fulfilled (a : A)
| Rejected (r : Reason).
Arguments Fulfilled {A} a.
Arguments Rejected {A} r.

#[global] Instance settled_ret : MRet settled := fun A a => Fulfilled a.

(** [await p] followed by the rest of an [async] function: a rejection
    skips the rest and becomes the function's own rejection. *)
#[global] Instance settled_bind : MBind settled := fun A B k p =>
  match p with
  | Fulfilled a => k a
  | Rejected r => Rejected r
  end.

(** What calling [undefined(...)], reading a property of [null] and the
    like throw. *)
Definition TypeError (msg : string) : Error :=
  {| code := None; message := msg |}.

(** ** JavaScript values *)

Section Values.

(** Function values are opaque to the loader: it only tests
    [typeof v === "function"] and calls them. *)
Context {Fn : Type}.

(** Values as far as the loader inspects them. An object is the list of
    its properties; the first binding of a key is the one that is read. *)
Inductive value : Type :=
| VUndefined
| VNull
| VBoolean (b : bool)
| VNumber (n : Z)
| VString (s : string)
| VFunction (f : Fn)
| VObject (props : list (string * value)).

(** [typeof v]. *)
Definition typeof (v : value) : string :=
  match v with
  | VUndefined => "undefined"
  | VNull => "object"
  | VBoolean _ => "boolean"
  | VNumber _ => "number"
  | VString _ => "string"
  | VFunction _ => "function"
  | VObject _ => "object"
  end.

(** [v !== null]. *)
Definition notNull (v : value) : bool :=
  match v with VNull => false | _ => true end.

(** Truthiness, as [&&], [||] and [if] test it. *)
Definition truthy (v : value) : bool :=
  match v with
  | VUndefined | VNull => false
  | VBoolean b => b
  | VNumber n => negb (n =? 0)
  | VString s => negb (String.eqb s "")
  | VFunction _ | VObject _ => true
  end.

Fixpoint lookupProp (key : string) (props : list (string * value)) : option value :=
  match props with
  | [] => None
  | (k, v) :: rest => if String.eqb k key then Some v else lookupProp key rest
  end.

(** [key in v], for [v] an object. *)
Definition hasProp (key : string) (v : value) : bool :=
  match v with
  | VObject props => bool_decide (is_Some (lookupProp key props))
  | _ => false
  end.

(** [v.key]: [undefined] when the property is missing. *)
Definition getProp (key : string) (v : value) : value :=
  match v with
  | VObject props => default VUndefined (lookupProp key props)
  | _ => VUndefined
  end.

(** [Object.keys(v).length]: the own enumerable keys of an object, the
    indices of a string, nothing for the other primitives. *)
Definition Object_keys_length (v : value) : nat :=
  match v with
  | VObject props => length (remove_dups props.*1)
  | VString s => String.length s
  | _ => 0%nat
  end.

(** The type guard of the loader. *)
Definition isToolDefinition (v : value) : bool :=
  String.eqb (typeof v) "object" &&
  notNull v &&
  hasProp "description" v &&
  hasProp "execute" v &&
  String.eqb (typeof (getProp "description" v)) "string" &&
  String.eqb (typeof (getProp "execute" v)) "function".

(** One item of a response: [{ type: "text", text }]. *)
Record ContentItem := mkContentItem {
  type_ : string;
  text : value
}.

(** The response envelope: [{ content: [...] }]. *)
Record Envelope := mkEnvelope {
  content : list ContentItem
}.

End Values.

Arguments value : clear implicits.
Arguments ContentItem : clear implicits.
Arguments Envelope : clear implicits.

(** ** The platform *)

(** What the loader takes from its environment: [call f args extra] is
    what [f(args, extra)] settles to once awaited (a synchronous throw
    and a rejected promise are both [Rejected]); [JSON_stringify v] is
    [JSON.stringify(v, null, 2)], a string or [undefined]; [argv] is
    [process.argv] and [MCP_NO_HOT_RELOAD] is
    [process.env.MCP_NO_HOT_RELOAD]; [resolve] and [join] are
    [path.resolve] and [path.join], and [pathToFileURL p] is
    [pathToFileURL(p).href]. *)
Class Platform (Fn : Type) := {
  call : Fn -> value Fn -> value Fn -> settled (value Fn);
  JSON_stringify : value Fn -> value Fn;
  argv : list string;
  MCP_NO_HOT_RELOAD : option string;
  resolve : string -> string;
  join : string -> string -> string;
  pathToFileURL : string -> string
}.

(** [resolve(process.argv[2] || ".claude/tool")]: the third entry of
    [process.argv], whatever it is, unless it is missing or empty. *)
Definition toolDir `{Platform Fn} : string :=
  resolve (match argv !! 2%nat with
           | Some dir => if String.eqb dir "" then ".claude/tool" else dir
           | None => ".claude/tool"
           end).

Section Loader.

Context `{Platform Fn}.

#[local] Abbreviation value := (value Fn).
#[local] Abbreviation Envelope := (Envelope Fn).

(** ** The adapter built by [registerTool] *)

(** The object both handlers return once [execute] has settled. *)
Definition response (result : value) : Envelope :=
  {| content :=
       [ {| type_ := "text";
            text := if String.eqb (typeof result) "string" then result
                    else JSON_stringify result |} ] |}.

(** [tool.execute(args, extra)], awaited. *)
Definition execute (tool args extra : value) : settled value :=
  match getProp "execute" tool with
  | VFunction f => call f args extra
  | _ => Rejected (TypeError "tool.execute is not a function")
  end.

(** The handler passed with a schema:
    [async (args, extra) => { const result = await tool.execute(args, extra); return {...} }]. *)
Definition handlerWithArgs (tool : value) (args extra : value) : settled Envelope :=
  result ← execute tool args extra;
  mret (response result).

(** The handler passed without a schema:
    [async (extra) => { const result = await tool.execute({}, extra); return {...} }]. *)
Definition handlerNoArgs (tool : value) (extra : value) : settled Envelope :=
  result ← execute tool (VObject []) extra;
  mret (response result).

(** The two calling conventions of the server's [tool] method. *)
Inductive Callback : Type :=
| WithArgs (h : value -> value -> settled Envelope)
| NoArgs (h : value -> settled Envelope).

(** An entry of the server's tool table. *)
Record RegisteredTool := mkRegisteredTool {
  description : value;
  inputSchema : option value;
  callback : Callback
}.

(** ** The registry *)

(** What the loader writes to [console.error], and the calls whose
    number and order the specification speaks about. *)
Inductive Event : Type :=
| LogUnregistering (file : string) (toolNames : gset string)
| LogRegistering (name : string)
| LogFileDeleted (file : string)
| LogFailedToLoad (file : string) (what : string + Error)
| LogNoToolsFound (dir : string) (r : Reason)
| LogHotReload (enabled : bool) (dir : string)
| LogSettingUpWatcher
| LogWatcherActive
| LogStarted (hotReloadEnabled : bool)
| LogWatcherEvent (eventType : string) (filename : option string)
| LogSchedulingReload (filename : string)
| LogSendingNotification
| LogNotificationFailed (r : Reason)
| CallLoadToolFile (file : string)
| CallSendToolListChanged.

(** The mutable state of the process: the server's tool table
    ([server._registeredTools]), the loader's own bookkeeping
    ([registeredTools], base name to tool names), and the trace. *)
Record State := mkState {
  _registeredTools : gmap string RegisteredTool;
  registeredTools : gmap string (gset string);
  trace : list Event
}.

Definition emit (e : Event) (st : State) : State :=
  {| _registeredTools := _registeredTools st;
     registeredTools := registeredTools st;
     trace := trace st ++ [e] |}.

(** [toolNames.forEach((name) => { delete server._registeredTools[name] })]. *)
Definition deleteTools (toolNames : gset string)
    (tools : gmap string RegisteredTool) : gmap string RegisteredTool :=
  foldr delete tools (elements toolNames).

(** [server] is the [McpServer] built at start-up, so the test for its
    [_registeredTools] member succeeds. *)
Definition unregisterFileTools (file : string) (st : State) : State :=
  let baseName := stripExtension file in
  match registeredTools st !! baseName with
  | Some toolNames =>
      {| _registeredTools := deleteTools toolNames (_registeredTools st);
         registeredTools := delete baseName (registeredTools st);
         trace := trace st ++ [LogUnregistering file toolNames] |}
  | None => st
  end.

(** Modelled from the spec: the server's [tool] method, which belongs to
    the protocol SDK. The sink accepts "register capability X with
    handler H" and installs it under its name, overwriting any entry
    with the same name. *)
Definition server_tool (name : string) (desc : value) (schema : option value)
    (cb : Callback) (tools : gmap string RegisteredTool) : gmap string RegisteredTool :=
  <[name := {| description := desc; inputSchema := schema; callback := cb |}]> tools.

(** [tool.args && Object.keys(tool.args).length > 0 ? tool.args : undefined]. *)
Definition schemaOf (tool : value) : value :=
  if truthy (getProp "args" tool) &&
     bool_decide (0 < Object_keys_length (getProp "args" tool))%nat
  then getProp "args" tool
  else VUndefined.

Definition registerTool (name : string) (tool : value) (baseName : string)
    (st : State) : State :=
  let tracked :=
    <[baseName := default ∅ (registeredTools st !! baseName) ∪ {[name]}]>
      (registeredTools st) in
  let schema := schemaOf tool in
  {| _registeredTools :=
       if truthy schema
       then server_tool name (getProp "description" tool) (Some schema)
              (WithArgs (handlerWithArgs tool)) (_registeredTools st)
       else server_tool name (getProp "description" tool) None
              (NoArgs (handlerNoArgs tool)) (_registeredTools st);
     registeredTools := tracked;
     trace := trace st ++ [LogRegistering name] |}.

(** ** Loading one file *)

(** A module namespace object: export name to exported value. *)
Abbreviation Module := (gmap string value).

(** The environment of one [loadToolFile] call: the clock reading, the
    outcome of [stat(filePath)] and the outcome of [import(url)]. *)
Record World := mkWorld {
  Date_now : Z;
  stat : string -> settled unit;
  import_ : string -> settled Module
}.

(** [hotReload ? `${fileUrl}?t=${Date.now()}` : fileUrl]. *)
Definition importUrl (hotReload : bool) (fileUrl : string) (now : Z) : string :=
  if hotReload then fileUrl +:+ "?t=" +:+ pretty now else fileUrl.

(** The [catch] clause of [loadToolFile], which starts by reading
    [e.code]. On [null] and [undefined] that read throws, so neither
    line is logged and the clause is left by the exception
    ([catchThrows]). *)
Definition loadFailed (file : string) (r : Reason) (st : State) : State :=
  match r with
  | ThrownNull | ThrownUndefined => st
  | Thrown e =>
      if bool_decide (code e = Some "ENOENT")
      then emit (LogFileDeleted file) st
      else emit (LogFailedToLoad file
                   (if String.eqb (message e) "" then inr e else inl (message e))) st
  end.

(** What the [catch] clause itself throws, if anything; the text of the
    message is the engine's. Nothing around the clause in
    [loadToolFile] catches that. *)
Definition catchThrows (r : Reason) : option Error :=
  match r with
  | ThrownNull => Some (TypeError "Cannot read properties of null (reading 'code')")
  | ThrownUndefined =>
      Some (TypeError "Cannot read properties of undefined (reading 'code')")
  | Thrown _ => None
  end.

(** The default export: [module.default && isToolDefinition(module.default)]. *)
Definition registerDefault (baseName : string) (module : Module) (st : State) : State :=
  let d := default VUndefined (module !! "default") in
  if truthy d && isToolDefinition d then registerTool baseName d baseName st else st.

(** One step of [Object.entries(module).forEach(...)]. *)
Definition registerNamed (baseName : string) (st : State) (entry : string * value) : State :=
  let '(key, v) := entry in
  if negb (String.eqb key "default") && isToolDefinition v
  then registerTool (namedToolName baseName key) v baseName st
  else st.

Definition registerExports (baseName : string) (module : Module) (st : State) : State :=
  foldl (registerNamed baseName) (registerDefault baseName module st)
        (map_to_list module).

(** The [try] block up to the registration: [stat], then [import]. *)
Definition loadModule (hotReload : bool) (w : World) (file : string) : settled Module :=
  let filePath := join toolDir file in
  _ ← stat w filePath;
  import_ w (importUrl hotReload (pathToFileURL filePath) (Date_now w)).

(** [loadToolFile] run without interruption: the state it leaves,
    whether its promise is fulfilled or rejected. *)
Definition loadToolFile (hotReload : bool) (w : World) (file : string)
    (st : State) : State :=
  let st := emit (CallLoadToolFile file) st in
  if negb (endsWith file ".ts") && negb (endsWith file ".js") then st
  else
    let baseName := stripExtension file in
    let st := unregisterFileTools file st in
    match loadModule hotReload w file with
    | Fulfilled module => registerExports baseName module st
    | Rejected r => loadFailed file r st
    end.

(** How the promise of [loadToolFile] settles: it is rejected when the
    [catch] clause throws, and fulfilled otherwise. *)
Definition loadToolFileRejects (hotReload : bool) (w : World) (file : string) :
    option Error :=
  if negb (endsWith file ".ts") && negb (endsWith file ".js") then None
  else
    match loadModule hotReload w file with
    | Fulfilled _ => None
    | Rejected r => catchThrows r
    end.

(** [for (const file of files) { await loadToolFile(file) }]; [worlds file]
    is the environment at the moment [file] is loaded. A rejected
    [loadToolFile] ends the loop: the files after it are not loaded. *)
Fixpoint loadFiles (hotReload : bool) (worlds : string -> World)
    (files : list string) (st : State) : State :=
  match files with
  | [] => st
  | file :: rest =>
      let st := loadToolFile hotReload (worlds file) file st in
      match loadToolFileRejects hotReload (worlds file) file with
      | Some _ => st
      | None => loadFiles hotReload worlds rest st
      end
  end.

(** What the loop throws, if anything: the first rejection among its
    calls. *)
Fixpoint loadFilesRejects (hotReload : bool) (worlds : string -> World)
    (files : list string) : option Error :=
  match files with
  | [] => None
  | file :: rest =>
      match loadToolFileRejects hotReload (worlds file) file with
      | Some e => Some e
      | None => loadFilesRejects hotReload worlds rest
      end
  end.

(** [loadAllTools]: [readdir] is the outcome of [readdir(toolDir)]. The
    [try] block holds the loop as well, so a rejected [loadToolFile] is
    caught here, reported as if the directory had no tools, and the rest
    of the directory is not loaded. *)
Definition loadAllTools (hotReload : bool) (readdir : settled (list string))
    (worlds : string -> World) (st : State) : State :=
  match readdir with
  | Fulfilled files =>
      let st := loadFiles hotReload worlds files st in
      match loadFilesRejects hotReload worlds files with
      | Some e => emit (LogNoToolsFound toolDir e) st
      | None => st
      end
  | Rejected r => emit (LogNoToolsFound toolDir r) st
  end.

(** ** The debounced watcher *)

(** The watch callback is synchronous. The timer callback is an
    [async] function; [timer_callback] below gives it run without
    interruption, and [asyncStep] further down gives it await by await,
    with whatever else runs in between. *)

(** The process: the registry, the deadline of the armed debounce timer
    (if any) and the pending set, in insertion order. *)
Record Process := mkProcess {
  state : State;
  reloadTimeout : option Z;
  pendingReloads : list string
}.

(** [pendingReloads.add(filename)]. *)
Definition setAdd (x : string) (l : list string) : list string :=
  if bool_decide (x ∈ l) then l else l ++ [x].

(** [scheduleReload]: the armed timer is cleared and a new one is set,
    100 ms from now. *)
Definition scheduleReload (now : Z) (p : Process) : Process :=
  {| state := state p;
     reloadTimeout := Some (now + 100);
     pendingReloads := pendingReloads p |}.

(** The callback given to [watch]. *)
Definition watch_callback (now : Z) (eventType : string) (filename : option string)
    (p : Process) : Process :=
  let p := {| state := emit (LogWatcherEvent eventType filename) (state p);
              reloadTimeout := reloadTimeout p;
              pendingReloads := pendingReloads p |} in
  match filename with
  | Some fn =>
      if negb (String.eqb fn "") && (endsWith fn ".ts" || endsWith fn ".js")
      then scheduleReload now
             {| state := emit (LogSchedulingReload fn) (state p);
                reloadTimeout := reloadTimeout p;
                pendingReloads := setAdd fn (pendingReloads p) |}
      else p
  | None => p
  end.

(** The notification step of the timer callback; [sent] is the outcome
    of [server.server.sendToolListChanged()], a method the server built
    at start-up has. *)
Definition notifyListChanged (sent : settled unit) (st : State) : State :=
  let st := emit CallSendToolListChanged (emit LogSendingNotification st) in
  match sent with
  | Fulfilled _ => st
  | Rejected r => emit (LogNotificationFailed r) st
  end.

(** The callback given to [setTimeout], run without interruption. When
    the loop throws, the callback is left by the exception and the
    notification step is not reached. *)
Definition timer_callback (worlds : string -> World) (sent : settled unit)
    (p : Process) : Process :=
  let files := pendingReloads p in
  let st := loadFiles true worlds files (state p) in
  {| state := match loadFilesRejects true worlds files with
              | Some _ => st
              | None => if bool_decide (0 < length files)%nat
                        then notifyListChanged sent st else st
              end;
     reloadTimeout := None;
     pendingReloads := [] |}.

(** How the promise of the timer callback settles. Nothing awaits it: a
    rejection is an unhandled one, and what the runtime does then is its
    own policy (to end the process, or to warn and go on). The runs
    below go on, so what holds after every run holds under either
    policy. *)
Definition timer_callback_rejects (worlds : string -> World) (p : Process) :
    option Error :=
  loadFilesRejects true worlds (pendingReloads p).

(** The event loop around the two callbacks. A file-system event
    carries the time at which its callback runs. *)
Record FsEvent := mkFsEvent {
  at_ : Z;
  eventType : string;
  filename : option string
}.

(** The armed timer fires once its deadline has passed. In [expire],
    [deliver] and [run] every batch runs without interruption and every
    file finds the same environment each time it is loaded; [asyncRun]
    below is the event loop without these two restrictions. *)
Definition expire (worlds : string -> World) (sent : settled unit) (now : Z)
    (p : Process) : Process :=
  match reloadTimeout p with
  | Some deadline =>
      if deadline <=? now then timer_callback worlds sent p else p
  | None => p
  end.

(** One file-system event: a timer that is due runs first, then the
    watch callback. *)
Definition deliver (worlds : string -> World) (sent : settled unit)
    (p : Process) (ev : FsEvent) : Process :=
  watch_callback (at_ ev) (eventType ev) (filename ev)
    (expire worlds sent (at_ ev) p).

Definition run (worlds : string -> World) (sent : settled unit)
    (events : list FsEvent) (p : Process) : Process :=
  foldl (deliver worlds sent) p events.

(** The watch callbacks of a run of events between two firings of the
    timer. *)
Definition accumulate (events : list FsEvent) (p : Process) : Process :=
  foldl (fun p ev => watch_callback (at_ ev) (eventType ev) (filename ev) p) p events.

(** ** The timer callback, await by await *)

(** An [await] hands control back to the event loop; the callback goes
    on when the promise it waits for has settled, and in between other
    callbacks run: the watch callback, the timer again, the
    continuation of an earlier batch. The timer callback waits at
    [await stat(filePath)] and [await import(importUrl)] inside
    [loadToolFile], at [await loadToolFile(file)] in its loop, and at
    [await server.server.sendToolListChanged()]. *)
Inductive Await : Type :=
| AwaitStat (file : string)
| AwaitImport (file : string) (url : string)
| AwaitLoadToolFile (thrown : option Error)
| AwaitSend.

(** A batch in flight: where it waits and the files its loop has not
    come to yet. *)
Record Batch := mkBatch {
  awaiting : Await;
  remaining : list string
}.

(** The loop of the timer callback from the top of a turn to the next
    [await]. A batch in flight was started with at least one file, so
    after the loop [files.length > 0] holds and the notification is
    sent. *)
Definition nextFile (files : list string) (st : State) : State * Batch :=
  match files with
  | [] =>
      (emit CallSendToolListChanged (emit LogSendingNotification st),
       {| awaiting := AwaitSend; remaining := [] |})
  | file :: rest =>
      let st := emit (CallLoadToolFile file) st in
      if negb (endsWith file ".ts") && negb (endsWith file ".js")
      then (st, {| awaiting := AwaitLoadToolFile None; remaining := rest |})
      else (unregisterFileTools file st,
            {| awaiting := AwaitStat file; remaining := rest |})
  end.

(** The [catch] clause of [loadToolFile], after which the function
    returns or throws. *)
Definition caught (file : string) (r : Reason) (b : Batch) (st : State) : State * Batch :=
  (loadFailed file r st,
   {| awaiting := AwaitLoadToolFile (catchThrows r); remaining := remaining b |}).

(** [stat] has settled; [now] is what [Date.now()] reads next. *)
Definition statSettled (outcome : settled unit) (now : Z) (b : Batch) (st : State) :
    option (State * option Batch) :=
  match awaiting b with
  | AwaitStat file =>
      Some match outcome with
           | Fulfilled _ =>
               (st, Some {| awaiting :=
                              AwaitImport file
                                (importUrl true (pathToFileURL (join toolDir file)) now);
                            remaining := remaining b |})
           | Rejected r => let '(st, b) := caught file r b st in (st, Some b)
           end
  | _ => None
  end.

(** [import] has settled. *)
Definition importSettled (outcome : settled Module) (b : Batch) (st : State) :
    option (State * option Batch) :=
  match awaiting b with
  | AwaitImport file _ =>
      Some match outcome with
           | Fulfilled module =>
               (registerExports (stripExtension file) module st,
                Some {| awaiting := AwaitLoadToolFile None; remaining := remaining b |})
           | Rejected r => let '(st, b) := caught file r b st in (st, Some b)
           end
  | _ => None
  end.

(** [loadToolFile] has settled: the loop goes on with the next file, or
    the callback is left by what [loadToolFile] threw and the batch
    ends there. *)
Definition loadToolFileSettled (b : Batch) (st : State) : option (State * option Batch) :=
  match awaiting b with
  | AwaitLoadToolFile None =>
      Some (let '(st, b) := nextFile (remaining b) st in (st, Some b))
  | AwaitLoadToolFile (Some _) => Some (st, None)
  | _ => None
  end.

(** [sendToolListChanged] has settled: the batch is over. *)
Definition sendSettled (outcome : settled unit) (b : Batch) (st : State) :
    option (State * option Batch) :=
  match awaiting b with
  | AwaitSend =>
      Some (match outcome with
            | Fulfilled _ => st
            | Rejected r => emit (LogNotificationFailed r) st
            end, None)
  | _ => None
  end.

(** The process with its batches in flight, oldest first. *)
Record Async := mkAsync {
  proc : Process;
  batches : list Batch
}.

(** What the event loop runs next: a watch callback, the timer callback
    (at [now], when the timer is armed and due), or the continuation of
    the batch at place [i], with the outcome of what it waited for. *)
Inductive Step : Type :=
| Watched (ev : FsEvent)
| TimerFires (now : Z)
| StatSettles (i : nat) (outcome : settled unit) (now : Z)
| ImportSettles (i : nat) (outcome : settled Module)
| LoadToolFileSettles (i : nat)
| SendSettles (i : nat) (outcome : settled unit).

Definition withState (st : State) (p : Process) : Process :=
  {| state := st; reloadTimeout := reloadTimeout p; pendingReloads := pendingReloads p |}.

(** The continuation [k] of batch [i]; nothing happens when there is no
    such batch or it waits for something else. *)
Definition resume (i : nat) (k : Batch -> State -> option (State * option Batch))
    (a : Async) : Async :=
  match batches a !! i with
  | Some b =>
      match k b (state (proc a)) with
      | Some (st, Some b') =>
          {| proc := withState st (proc a); batches := <[i := b']> (batches a) |}
      | Some (st, None) =>
          {| proc := withState st (proc a); batches := delete i (batches a) |}
      | None => a
      end
  | None => a
  end.

(** The timer callback up to its first [await]. *)
Definition timerFires (now : Z) (a : Async) : Async :=
  match reloadTimeout (proc a) with
  | Some deadline =>
      if deadline <=? now then
        match pendingReloads (proc a) with
        | [] =>
            {| proc := {| state := state (proc a);
                          reloadTimeout := None; pendingReloads := [] |};
               batches := batches a |}
        | files =>
            let '(st, b) := nextFile files (state (proc a)) in
            {| proc := {| state := st; reloadTimeout := None; pendingReloads := [] |};
               batches := batches a ++ [b] |}
        end
      else a
  | None => a
  end.

Definition asyncStep (a : Async) (s : Step) : Async :=
  match s with
  | Watched ev =>
      {| proc := watch_callback (at_ ev) (eventType ev) (filename ev) (proc a);
         batches := batches a |}
  | TimerFires now => timerFires now a
  | StatSettles i outcome now => resume i (statSettled outcome now) a
  | ImportSettles i outcome => resume i (importSettled outcome) a
  | LoadToolFileSettles i => resume i loadToolFileSettled a
  | SendSettles i outcome => resume i (sendSettled outcome) a
  end.

Definition asyncRun (steps : list Step) (a : Async) : Async :=
  foldl asyncStep a steps.

(** A process with no batch in flight. *)
Definition idle (p : Process) : Async := {| proc := p; batches := [] |}.

(** The steps that settle what batch [i] waits for while it goes
    through [files], one right after the other, with the outcomes
    [worlds] and [sent] hold. *)
Fixpoint settlements (i : nat) (worlds : string -> World) (sent : settled unit)
    (files : list string) : list Step :=
  match files with
  | [] => [SendSettles i sent]
  | file :: rest =>
      (if negb (endsWith file ".ts") && negb (endsWith file ".js") then []
       else
         let w := worlds file in
         let filePath := join toolDir file in
         StatSettles i (stat w filePath) (Date_now w) ::
         match stat w filePath with
         | Fulfilled _ =>
             [ImportSettles i
                (import_ w (importUrl true (pathToFileURL filePath) (Date_now w)))]
         | Rejected _ => []
         end) ++
      LoadToolFileSettles i :: settlements i worlds sent rest
  end.

(** ** Start-up *)

(** [process.env.MCP_NO_HOT_RELOAD !== "true" &&
     !process.argv.includes("--no-hot-reload")]. *)
Definition hotReload (MCP_NO_HOT_RELOAD : option string) (argv : list string) : bool :=
  negb (bool_decide (MCP_NO_HOT_RELOAD = Some "true")) &&
  negb (bool_decide ("--no-hot-reload" ∈ argv)).

Definition initialState : State :=
  {| _registeredTools := ∅; registeredTools := ∅; trace := [] |}.

(** The script as it ends. [listChanged] is the capability the server
    was built with, [watching] tells whether the watch callback is
    installed, and [uncaught] is the exception that ended the script
    early, if one did. *)
Record Started := mkStarted {
  listChanged : bool;
  watching : bool;
  uncaught : option Reason;
  process : Process
}.

(** The script from the banner on, given the value of [hotReload]: the
    server with its declared capability ([tools.listChanged] when hot
    reload is on), the initial scan, the watcher when hot reload is on,
    and the closing lines. [readdir] is the outcome of
    [readdir(toolDir)] and [watched] that of [watch(toolDir, ...)],
    which throws when the directory cannot be watched; nothing catches
    that, and the script ends there. [server.connect] is taken to
    succeed. *)
Definition startup (hot : bool) (readdir : settled (list string))
    (watched : settled unit) (worlds : string -> World) : Started :=
  let st := emit (LogHotReload hot toolDir) initialState in
  let st := loadAllTools hot readdir worlds st in
  let serve (watching : bool) (st : State) :=
    {| listChanged := hot;
       watching := watching;
       uncaught := None;
       process := {| state := emit LogWatcherActive (emit (LogStarted hot) st);
                     reloadTimeout := None; pendingReloads := [] |} |} in
  if hot then
    let st := emit LogSettingUpWatcher st in
    match watched with
    | Fulfilled _ => serve true (emit LogWatcherActive st)
    | Rejected r =>
        {| listChanged := hot;
           watching := false;
           uncaught := Some r;
           process := {| state := st; reloadTimeout := None; pendingReloads := [] |} |}
    end
  else serve false st.

(** The script from top to bottom. *)
Definition main (readdir : settled (list string)) (watched : settled unit)
    (worlds : string -> World) : Started :=
  startup (hotReload MCP_NO_HOT_RELOAD argv) readdir watched worlds.

(** ** Notions the statements use *)

(** The tool names the loader tracks for a base name
    ([registeredTools.get(baseName)], empty when there is no entry). *)
Definition ownedBy (baseName : string) (st : State) : gset string :=
  default ∅ (registeredTools st !! baseName).

(** The exports a load yields; a failed load yields none. *)
Definition exportsOf (loaded : settled Module) : Module :=
  match loaded with
  | Fulfilled module => module
  | Rejected _ => ∅
  end.

(** The table entry [registerTool] passes to the server for a tool. *)
Definition entryOf (tool : value) : RegisteredTool :=
  if truthy (schemaOf tool)
  then {| description := getProp "description" tool;
          inputSchema := Some (schemaOf tool);
          callback := WithArgs (handlerWithArgs tool) |}
  else {| description := getProp "description" tool;
          inputSchema := None;
          callback := NoArgs (handlerNoArgs tool) |}.

(** How the server calls a registered callback: with the parsed
    arguments and the context when a schema was given, with the context
    alone otherwise. *)
Definition invokeCallback (cb : Callback) (args extra : value) : settled Envelope :=
  match cb with
  | WithArgs h => h args extra
  | NoArgs h => h extra
  end.

(** The arguments [execute] receives when the callback registered for
    [tool] is called with [args]. *)
Definition passedArgs (tool args : value) : value :=
  if truthy (schemaOf tool) then args else VObject [].

(** A tool definition without its [args] property. *)
Definition withoutArgs (tool : value) : value :=
  match tool with
  | VObject props => VObject (filter (fun kv => kv.1 <> "args") props)
  | _ => tool
  end.

(** Two states with the same tables, whatever their traces. *)
Definition sameTables (st1 st2 : State) : Prop :=
  _registeredTools st1 = _registeredTools st2 /\
  registeredTools st1 = registeredTools st2.

(** The calls recorded in a trace, without the log lines. *)
Definition isCall (e : Event) : bool :=
  match e with
  | CallLoadToolFile _ | CallSendToolListChanged => true
  | _ => false
  end.

(** The part of a trace that a test on events keeps. *)
Definition project (keep : Event -> bool) (t : list Event) : list Event :=
  filter (fun e => keep e = true) t.

Definition calls (t : list Event) : list Event := project isCall t.

(** The log lines that report a failure. *)
Definition isFailureLog (e : Event) : bool :=
  match e with
  | LogFileDeleted _ | LogFailedToLoad _ _ | LogNoToolsFound _ _
  | LogNotificationFailed _ => true
  | _ => false
  end.

Definition failures (t : list Event) : list Event := project isFailureLog t.

(** The runtime evaluates the file a URL names; a [?t=] query added to
    a file URL does not change which file that is. *)
Definition queryInsensitive (w : World) : Prop :=
  forall path q,
    import_ w (pathToFileURL path +:+ "?t=" +:+ q) = import_ w (pathToFileURL path).

End Loader.

(** ** A tool directory to run the loader on *)

Module Scenario.

(** The behaviours of the tools in the directory. *)
Inductive toolFn : Type :=
| FnAdd
| FnMultiply
| FnSubtract
| FnGreet
| FnBoom.

Definition numberArg (key : string) (args : value toolFn) : Z :=
  match getProp key args with
  | VNumber n => n
  | _ => 0
  end.

Definition boom : Error := {| code := None; message := "boom" |}.

Definition callTool (f : toolFn) (args extra : value toolFn) : settled (value toolFn) :=
  match f with
  | FnAdd => Fulfilled (VNumber (numberArg "a" args + numberArg "b" args))
  | FnMultiply => Fulfilled (VNumber (numberArg "a" args * numberArg "b" args))
  | FnSubtract => Fulfilled (VNumber (numberArg "a" args - numberArg "b" args))
  | FnGreet => Fulfilled (VString "hello")
  | FnBoom => Rejected boom
  end.

(** [JSON.stringify] on the results the tools above produce. *)
Definition stringify (v : value toolFn) : value toolFn :=
  match v with
  | VNumber n => VString (pretty n)
  | VBoolean true => VString "true"
  | VBoolean false => VString "false"
  | VNull => VString "null"
  | VObject [] => VString "{}"
  | _ => VUndefined
  end.

(** [path.resolve] where the working directory is [/cwd]. *)
Definition resolvePath (path : string) : string :=
  if String.prefix "/" path then path else "/cwd/" +:+ path.

(** The platform of a process started with these arguments and this
    value of [MCP_NO_HOT_RELOAD]. *)
Definition platformWith (args : list string) (noHotReload : option string) :
    Platform toolFn := {|
  call := callTool;
  JSON_stringify := stringify;
  argv := args;
  MCP_NO_HOT_RELOAD := noHotReload;
  resolve := resolvePath;
  join := fun dir file => dir +:+ "/" +:+ file;
  pathToFileURL := fun path => "file://" +:+ path
|}.

(** [mcp-loader /tools]. *)
#[global] Instance platform : Platform toolFn :=
  platformWith ["node"; "mcp-loader"; "/tools"] None.

(** The part of a URL before its query (the first [?], character 63). *)
Fixpoint stripQuery (url : string) : string :=
  match url with
  | EmptyString => EmptyString
  | String c rest =>
      if Ascii.eqb c (Ascii.ascii_of_nat 63) then EmptyString
      else String c (stripQuery rest)
  end.

Definition ENOENT : Error :=
  {| code := Some "ENOENT"; message := "no such file or directory" |}.

Fixpoint dropChars (n : nat) (s : string) : string :=
  match n, s with
  | S n', String _ rest => dropChars n' rest
  | _, _ => s
  end.

(** The path a [file://] URL names: the URL without its scheme and its
    query. *)
Definition urlToPath (url : string) : string :=
  stripQuery (dropChars 7 url).

(** A disk: path to what evaluating the file yields. The loader of the
    runtime reads the file the URL names; the query plays no part. *)
Definition diskWorld (now : Z) (disk : gmap string (settled (gmap string (value toolFn)))) : World :=
  {| Date_now := now;
     stat := fun path =>
       if bool_decide (is_Some (disk !! path)) then Fulfilled tt else Rejected ENOENT;
     import_ := fun url =>
       default (Rejected ENOENT) (disk !! urlToPath url) |}.

Definition numberSchema : value toolFn :=
  VObject [("a", VString "number"); ("b", VString "number")].

Definition tool (desc : string) (args : option (value toolFn)) (f : toolFn) : value toolFn :=
  VObject (("description", VString desc) ::
           match args with Some a => [("args", a)] | None => [] end ++
           [("execute", VFunction f)]).

Definition addTool := tool "Add two numbers" (Some numberSchema) FnAdd.
Definition multiplyTool := tool "Multiply two numbers" (Some numberSchema) FnMultiply.
Definition subtractTool := tool "Subtract two numbers" (Some numberSchema) FnSubtract.
Definition greetTool := tool "Say hello" None FnGreet.
Definition greetToolEmptyArgs := tool "Say hello" (Some (VObject [])) FnGreet.
Definition boomTool := tool "Always fails" None FnBoom.

(** [math.ts] before and after the edit of the specification's
    scenario. *)
Definition math_v1 : gmap string (value toolFn) :=
  {[ "add" := addTool; "multiply" := multiplyTool ]}.
Definition math_v2 : gmap string (value toolFn) :=
  {[ "add" := addTool; "subtract" := subtractTool ]}.

(** A default export without [description], next to a constant. *)
Definition nodesc : gmap string (value toolFn) :=
  {[ "default" := VObject [("execute", VFunction FnGreet)];
     "version" := VNumber 1 ]}.

Definition syntaxError : Error :=
  {| code := None; message := "Unexpected token" |}.

Definition disk1 : gmap string (settled (gmap string (value toolFn))) :=
  {[ "/tools/math.ts" := Fulfilled math_v1;
     "/tools/greet.ts" := Fulfilled {[ "default" := greetTool ]};
     "/tools/broken.ts" := Rejected syntaxError;
     "/tools/nodesc.ts" := Fulfilled nodesc ]}.

(** The directory after [math.ts] was edited. *)
Definition disk1_edited : gmap string (settled (gmap string (value toolFn))) :=
  <["/tools/math.ts" := Fulfilled math_v2]> disk1.

Definition world1 : World := diskWorld 1000 disk1.
Definition world1_edited : World := diskWorld 6000 disk1_edited.

(** The registry after the initial scan of [disk1]. *)
Definition scanned : @State toolFn :=
  loadAllTools true
    (Fulfilled ["README.md"; "broken.ts"; "greet.ts"; "math.ts"; "nodesc.ts"])
    (fun _ => world1) initialState.

(** Five events for [math.ts], 10 ms apart. *)
Definition fiveEvents : list FsEvent :=
  [ mkFsEvent 5000 "change" (Some "math.ts");
    mkFsEvent 5010 "change" (Some "math.ts");
    mkFsEvent 5020 "rename" (Some "math.ts");
    mkFsEvent 5030 "change" (Some "math.ts");
    mkFsEvent 5040 "change" (Some "math.ts") ].

(** Two files that derive the same tool name, [a_b_c]. *)
Definition disk2 : gmap string (settled (gmap string (value toolFn))) :=
  {[ "/tools/a.ts" := Fulfilled {[ "b_c" := greetTool ]};
     "/tools/a_b.ts" := Fulfilled {[ "c" := addTool ]} ]}.

End Scenario.

(** ** The [tool] helper *)

Section ToolHelper.

Context {Fn : Type}.

(** [tool(config)] of the helper module: [return config]. *)
Definition tool (config : value Fn) : value Fn := config.

(** The object literal [{ description, args, execute }] a tool file
    passes to [tool]; [args] may be left out. *)
Definition toolConfig (description : string) (args : option (value Fn))
    (execute : Fn) : value Fn :=
  VObject (("description", VString description) ::
           match args with Some a => [("args", a)] | None => [] end ++
           [("execute", VFunction execute)]).

End ToolHelper.

(** ** More notions about the registry and the watcher *)

Section Notions.

Context `{Platform Fn}.

(** Every tool in the server's table is tracked for some base name. *)
Definition liveTracked (st : @State Fn) : Prop :=
  forall name, is_Some (_registeredTools st !! name) ->
               exists baseName, name ∈ ownedBy baseName st.

(** No base name is tracked with an empty set of tools. *)
Definition noEmptyEntry (st : @State Fn) : Prop :=
  forall baseName toolNames,
    registeredTools st !! baseName = Some toolNames -> toolNames <> ∅.

(** The names a reload of [file] is concerned with: those tracked for
    the file before it and those tracked for it after. *)
Definition touchedNames (hotReload : bool) (w : @World Fn) (file : string)
    (st : @State Fn) : gset string :=
  ownedBy (stripExtension file) st ∪
  ownedBy (stripExtension file) (loadToolFile hotReload w file st).

(** The event names a tool file: the test of the watch callback. *)
Definition namesToolFile (ev : FsEvent) : bool :=
  match filename ev with
  | Some fn => negb (String.eqb fn "") && (endsWith fn ".ts" || endsWith fn ".js")
  | None => false
  end.

(** The tool files a run of events names, one entry per event. *)
Definition changedToolFiles (events : list FsEvent) : list string :=
  omap (fun ev => if namesToolFile ev then filename ev else None) events.

(** The deadline of the timer after the watch callbacks of [events],
    none of them interrupted by the timer. *)
Fixpoint deadlineAfter (deadline : option Z) (events : list FsEvent) : option Z :=
  match events with
  | [] => deadline
  | ev :: rest =>
      deadlineAfter (if namesToolFile ev then Some (at_ ev + 100) else deadline) rest
  end.

(** Every event arrives before the deadline armed at that moment. *)
Fixpoint beforeDeadline (deadline : option Z) (events : list FsEvent) : bool :=
  match events with
  | [] => true
  | ev :: rest =>
      match deadline with Some d => at_ ev <? d | None => true end &&
      beforeDeadline (if namesToolFile ev then Some (at_ ev + 100) else deadline) rest
  end.

End Notions.

(** ** The code-map tool: shared type names *)

Module CodeMap.

(** [TypeInfo]. *)
Record TypeInfo := mkTypeInfo {
  hash : string;
  typeString : string;
  count : nat;
  suggestedName : option string;
  finalName : option string
}.

(** [s.includes(sub)]. *)
Fixpoint includes (s sub : string) : bool :=
  String.prefix sub s ||
  match s with
  | EmptyString => false
  | String _ s' => includes s' sub
  end.

(** An optional string inside a template literal: [undefined] prints as
    its name. *)
Definition inTemplate (o : option string) : string := default "undefined" o.

(** [info.suggestedName || "SharedType"]. *)
Definition firstName (info : TypeInfo) : string :=
  match suggestedName info with
  | Some s => if String.eqb s "" then "SharedType" else s
  | None => "SharedType"
  end.

(** The candidate tried after [counter - 1] collisions:
    [`${info.suggestedName}${counter}`]. *)
Definition candidate (info : TypeInfo) (counter : nat) : string :=
  inTemplate (suggestedName info) +:+ pretty counter.

(** [while (usedNames.has(name)) { name = `${info.suggestedName}${counter++}` }],
    at most [fuel] times round the loop. *)
Fixpoint resolveName (fuel : nat) (usedNames : gset string) (info : TypeInfo)
    (name : string) (counter : nat) : option string :=
  if bool_decide (name ∈ usedNames) then
    match fuel with
    | O => None
    | S fuel' => resolveName fuel' usedNames info (candidate info counter) (S counter)
    end
  else Some name.

(** [info.count >= 2 &&
     (info.typeString.length > 100 || info.typeString.includes("{"))]. *)
Definition isShared (info : TypeInfo) : bool :=
  (2 <=? count info)%nat &&
  ((100 <? String.length (typeString info))%nat || includes (typeString info) "{").

(** [map.set(key, v)] on a [Map] listed in insertion order. *)
Fixpoint mapSet (key : string) (v : TypeInfo) (m : list (string * TypeInfo)) :
    list (string * TypeInfo) :=
  match m with
  | [] => [(key, v)]
  | (k, x) :: rest =>
      if String.eqb k key then (k, v) :: rest else (k, x) :: mapSet key v rest
  end.

Definition withFinalName (info : TypeInfo) (name : string) : TypeInfo :=
  {| hash := hash info; typeString := typeString info; count := count info;
     suggestedName := suggestedName info; finalName := Some name |}.

(** The state of the loop of [finalizeTypes]: the entries of [typeMap]
    already visited (with the final names they were given), the shared
    types and the names in use. *)
Record Finalizing := mkFinalizing {
  visited : list (string * TypeInfo);
  sharedTypes : list (string * TypeInfo);
  usedNames : gset string
}.

(** One turn of [for (const [hash, info] of this.typeMap)]. *)
Definition finalizeStep (fuel : nat) (acc : Finalizing) (entry : string * TypeInfo) :
    option Finalizing :=
  let '(h, info) := entry in
  if isShared info then
    name ← resolveName fuel (usedNames acc) info (firstName info) 1;
    Some {| visited := visited acc ++ [(h, withFinalName info name)];
            sharedTypes := mapSet h (withFinalName info name) (sharedTypes acc);
            usedNames := usedNames acc ∪ {[name]} |}
  else
    Some {| visited := visited acc ++ [(h, info)];
            sharedTypes := sharedTypes acc;
            usedNames := usedNames acc |}.

Fixpoint finalizeLoop (fuel : nat) (acc : Finalizing)
    (typeMap : list (string * TypeInfo)) : option Finalizing :=
  match typeMap with
  | [] => Some acc
  | entry :: rest =>
      acc' ← finalizeStep fuel acc entry;
      finalizeLoop fuel acc' rest
  end.

(** [finalizeTypes]: the type map as the loop leaves it and the shared
    types it returns; [None] when some [while] loop needs more than
    [fuel] turns. *)
Definition finalizeTypes (fuel : nat) (typeMap : list (string * TypeInfo)) :
    option (list (string * TypeInfo) * list (string * TypeInfo)) :=
  acc ← finalizeLoop fuel {| visited := []; sharedTypes := []; usedNames := ∅ |} typeMap;
  Some (visited acc, sharedTypes acc).

(** The final names of a list of entries, and the entries of a type map
    that are shared. *)
Definition finalNames (l : list (string * TypeInfo)) : list (option string) :=
  (fun e => finalName e.2) <$> l.

Definition sharedOf (l : list (string * TypeInfo)) : list (string * TypeInfo) :=
  filter (fun e => isShared e.2 = true) l.

(** How [finalizeTypes] leaves an entry of the type map: a shared one
    with a final name, any other as it was. *)
Definition finalized (e e' : string * TypeInfo) : Prop :=
  e'.1 = e.1 /\
  if isShared e.2 then exists n, e'.2 = withFinalName e.2 n else e'.2 = e.2.

End CodeMap.

(** ** More of the scenario *)

Module Scenario2.

Import Scenario.

(** [math.ts] is deleted. *)
Definition disk1_deleted : gmap string (settled (gmap string (value toolFn))) :=
  delete "/tools/math.ts" disk1.

Definition world1_deleted : World := diskWorld 7000 disk1_deleted.

(** [math.ts] is edited into a file that does not parse. *)
Definition disk1_broken : gmap string (settled (gmap string (value toolFn))) :=
  <["/tools/math.ts" := Rejected syntaxError]> disk1.

Definition world1_broken : World := diskWorld 6000 disk1_broken.

(** Three changes, each within 100 ms of the one before. *)
Definition slidingEvents : list FsEvent :=
  [ mkFsEvent 5000 "change" (Some "math.ts");
    mkFsEvent 5090 "change" (Some "notes.md");
    mkFsEvent 5095 "change" (Some "greet.ts");
    mkFsEvent 5190 "change" (Some "math.ts") ].

(** [flaky.ts] rejects without a reason, as a module does whose top
    level runs [await Promise.reject()] or [throw undefined]. *)
Definition disk3 : gmap string (settled (gmap string (value toolFn))) :=
  {[ "/tools/flaky.ts" := Rejected ThrownUndefined;
     "/tools/math.ts" := Fulfilled math_v1 ]}.

Definition world3 : World := diskWorld 5110 disk3.

(** [flaky.ts] and [math.ts] change within one window. *)
Definition twoFiles : list FsEvent :=
  [ mkFsEvent 5000 "change" (Some "flaky.ts");
    mkFsEvent 5010 "change" (Some "math.ts") ].



(** The loader started in [/cwd] without a directory argument, once as
    [mcp-loader] and once as [mcp-loader --no-hot-reload]. *)
Definition platform_default : Platform toolFn :=
  platformWith ["node"; "mcp-loader"] None.

Definition platform_flag : Platform toolFn :=
  platformWith ["node"; "mcp-loader"; "--no-hot-reload"] None.

(** The same without the flag and with [MCP_NO_HOT_RELOAD=true]. *)
Definition platform_env : Platform toolFn :=
  platformWith ["node"; "mcp-loader"] (Some "true").

(** The script on a platform, in the file system below. *)
Definition startOn (P : Platform toolFn) (readdir : string -> settled (list string))
    (watch : string -> settled unit) (worlds : string -> World) : Started :=
  @main toolFn P (readdir (@toolDir toolFn P)) (watch (@toolDir toolFn P)) worlds.

(** A file system whose only directory is [/cwd/.claude/tool], with
    [math.ts] in it. *)
Definition cwdDisk : gmap string (settled (gmap string (value toolFn))) :=
  {[ "/cwd/.claude/tool/math.ts" := Fulfilled math_v1 ]}.

Definition cwdReaddir (dir : string) : settled (list string) :=
  if String.eqb dir "/cwd/.claude/tool" then Fulfilled ["math.ts"]
  else Rejected ENOENT.

Definition cwdWatch (dir : string) : settled unit :=
  if String.eqb dir "/cwd/.claude/tool" then Fulfilled tt else Rejected ENOENT.

(** A type map with two shared types that suggest the same name. *)
Definition typeMap : list (string * CodeMap.TypeInfo) :=
  [ ("h1", CodeMap.mkTypeInfo "h1" "{ en: string; de: string; }" 3 (Some "LocalizedString") None);
    ("h2", CodeMap.mkTypeInfo "h2" "string" 5 (Some "NameType") None);
    ("h3", CodeMap.mkTypeInfo "h3" "{ en: string; de: string; } | null" 2 (Some "LocalizedString") None) ].

End Scenario2.

(** * Facts *)

(** ** File names *)

Lemma endsWith_eq (s suffix : string) :
  endsWith s suffix =
  String.eqb s suffix ||
  match s with EmptyString => false | String _ s' => endsWith s' suffix end.
Proof. destruct s; reflexivity. Qed.

Lemma endsWith_app (b suffix : string) : endsWith (b +:+ suffix) suffix = true.
Proof.
  induction b as [|c b IH].
  - change (EmptyString +:+ suffix) with suffix.
    rewrite endsWith_eq. now rewrite String.eqb_refl.
  - change (endsWith (String c b +:+ suffix) suffix)
      with (String.eqb (String c (b +:+ suffix)) suffix || endsWith (b +:+ suffix) suffix).
    rewrite IH. apply orb_true_r.
Qed.

Lemma endsWith_inv (s suffix : string) :
  endsWith s suffix = true -> exists b, s = b +:+ suffix.
Proof.
  induction s as [|c s IH]; rewrite endsWith_eq; cbv iota; intros H;
    apply orb_true_iff in H as [H|H].
  - apply String.eqb_eq in H. exists EmptyString. now subst.
  - discriminate.
  - apply String.eqb_eq in H. exists EmptyString. now rewrite H.
  - destruct (IH H) as [b ->]. exists (String c b). reflexivity.
Qed.

Lemma length_app_string (a b : string) :
  String.length (a +:+ b) = (String.length a + String.length b)%nat.
Proof.
  induction a as [|c a IH]; [reflexivity|].
  change (String.length (String c a +:+ b)) with (S (String.length (a +:+ b))).
  now rewrite IH.
Qed.

Lemma stripExtension_app (b ext : string) :
  ext = ".ts" \/ ext = ".js" -> stripExtension (b +:+ ext) = b.
Proof.
  intros Hext. induction b as [|c b IH].
  - destruct Hext as [-> | ->]; reflexivity.
  - change (String.append (String c b) ext) with (String c (b +:+ ext)).
    cbn [stripExtension]. rewrite IH.
    assert (Hne : forall t, String.length t = 3%nat -> String.eqb (String c (b +:+ ext)) t = false).
    { intros t Ht. apply String.eqb_neq. intros Heq.
      apply (f_equal String.length) in Heq. cbn in Heq.
      rewrite length_app_string in Heq.
      destruct Hext as [-> | ->]; cbn in Heq; lia. }
    rewrite !Hne by reflexivity. reflexivity.
Qed.

(** A tool file is its base name followed by [.ts] or [.js]: the base
    name is the file name without its extension. *)
Lemma isToolFile_split (file : string) :
  isToolFile file = true ->
  file = stripExtension file +:+ ".ts" \/ file = stripExtension file +:+ ".js".
Proof.
  unfold isToolFile. intros H. apply orb_true_iff in H as [H|H];
    apply endsWith_inv in H as [b ->]; [left | right];
    rewrite stripExtension_app; auto.
Qed.

Lemma namedToolName_inj (baseName k1 k2 : string) :
  namedToolName baseName k1 = namedToolName baseName k2 -> k1 = k2.
Proof.
  unfold namedToolName. intros H.
  apply (inj (String.append baseName)) in H.
  now apply (inj (String.append "_")) in H.
Qed.

Lemma namedToolName_ne_base (baseName key : string) :
  namedToolName baseName key <> baseName.
Proof.
  unfold namedToolName. intros H.
  apply (f_equal String.length) in H.
  rewrite !length_app_string in H. cbn in H. lia.
Qed.

Lemma toolName_inj (baseName k1 k2 : string) :
  toolName baseName k1 = toolName baseName k2 -> k1 = k2.
Proof.
  unfold toolName.
  destruct (String.eqb_spec k1 "default") as [->|H1],
           (String.eqb_spec k2 "default") as [->|H2]; intros H; auto.
  - symmetry in H. now apply namedToolName_ne_base in H.
  - now apply namedToolName_ne_base in H.
  - now apply namedToolName_inj in H.
Qed.

(** ** The registry operations *)

Section Facts.

Context `{Platform Fn}.

#[local] Abbreviation value := (value Fn).
#[local] Abbreviation Module := (gmap string value).
#[local] Abbreviation RegisteredTool := (@RegisteredTool Fn).
#[local] Abbreviation State := (@State Fn).
#[local] Abbreviation World := (@World Fn).
#[local] Abbreviation Process := (@Process Fn).

Lemma registerTool_tools (name : string) (tool : value) (baseName : string) (st : State) :
  _registeredTools (registerTool name tool baseName st) =
  <[name := entryOf tool]> (_registeredTools st).
Proof. unfold registerTool, entryOf, server_tool; cbn. now destruct (truthy (schemaOf tool)). Qed.

Lemma ownedBy_registerTool (name : string) (tool : value) (baseName b : string) (st : State) :
  ownedBy b (registerTool name tool baseName st) =
  if decide (baseName = b) then ownedBy b st ∪ {[name]} else ownedBy b st.
Proof.
  unfold ownedBy, registerTool; cbn. destruct (decide (baseName = b)) as [->|Hne].
  - now rewrite lookup_insert_eq.
  - now rewrite lookup_insert_ne.
Qed.

Lemma lookup_deleteTools (toolNames : gset string) (tools : gmap string RegisteredTool)
    (name : string) :
  deleteTools toolNames tools !! name =
  if decide (name ∈ toolNames) then None else tools !! name.
Proof.
  change (deleteTools toolNames tools) with (foldr delete tools (elements toolNames)).
  assert (Hl : forall l : list string,
             foldr delete tools l !! name =
             if decide (name ∈ l) then None else tools !! name).
  { induction l as [|x l IH]; cbn.
    - destruct (decide (name ∈ [])) as [Hin|]; [|reflexivity]. now apply elem_of_nil in Hin.
    - destruct (decide (x = name)) as [->|Hne].
      + rewrite lookup_delete_eq. destruct (decide (name ∈ name :: l)) as [|Hn]; [reflexivity|].
        exfalso. apply Hn. left.
      + rewrite lookup_delete_ne by assumption. rewrite IH.
        destruct (decide (name ∈ l)), (decide (name ∈ x :: l)) as [Hc|Hc]; try reflexivity.
        * exfalso. apply Hc. now right.
        * apply elem_of_cons in Hc as [->|]; [congruence | contradiction]. }
  rewrite Hl.
  destruct (decide (name ∈ elements toolNames)) as [Hin|Hin],
           (decide (name ∈ toolNames)) as [Hin'|Hin']; try reflexivity;
    rewrite elem_of_elements in Hin; contradiction.
Qed.

Lemma unregisterFileTools_tracked (file : string) (st : State) :
  registeredTools (unregisterFileTools file st) =
  delete (stripExtension file) (registeredTools st).
Proof.
  unfold unregisterFileTools.
  destruct (registeredTools st !! stripExtension file) eqn:E; cbn; [reflexivity|].
  symmetry. now apply delete_id.
Qed.

Lemma unregisterFileTools_tools (file : string) (st : State) (name : string) :
  _registeredTools (unregisterFileTools file st) !! name =
  if decide (name ∈ ownedBy (stripExtension file) st) then None
  else _registeredTools st !! name.
Proof.
  unfold unregisterFileTools, ownedBy.
  destruct (registeredTools st !! stripExtension file) as [toolNames|] eqn:E; cbn.
  - apply lookup_deleteTools.
  - destruct (decide (name ∈ (∅ : gset string))) as [Hin|]; [|reflexivity].
    now apply not_elem_of_empty in Hin.
Qed.

Lemma ownedBy_unregisterFileTools (file b : string) (st : State) :
  ownedBy b (unregisterFileTools file st) =
  if decide (stripExtension file = b) then ∅ else ownedBy b st.
Proof.
  unfold ownedBy. rewrite unregisterFileTools_tracked.
  destruct (decide (stripExtension file = b)) as [->|Hne].
  - now rewrite lookup_delete_eq.
  - now rewrite lookup_delete_ne.
Qed.

(** ** The type guard *)

Lemma isToolDefinition_spec (v : value) :
  isToolDefinition v = true <->
  exists props s f,
    v = VObject props /\
    getProp "description" v = VString s /\
    getProp "execute" v = VFunction f.
Proof.
  unfold isToolDefinition. split.
  - intros Hv. repeat (apply andb_true_iff in Hv as [Hv ?]).
    destruct v as [| | | | | |props]; try discriminate.
    destruct (getProp "description" (VObject props)) as [| | | |s| |] eqn:Ed;
      try discriminate.
    destruct (getProp "execute" (VObject props)) as [| | | | |f|] eqn:Ee;
      try discriminate.
    now exists props, s, f.
  - intros (props & s & f & -> & Hd & He). rewrite Hd, He. cbn in *.
    destruct (lookupProp "description" props); [|discriminate].
    destruct (lookupProp "execute" props); [|discriminate].
    reflexivity.
Qed.

Lemma isToolDefinition_truthy (v : value) :
  isToolDefinition v = true -> truthy v = true.
Proof. intros (props & _ & _ & -> & _)%isToolDefinition_spec. reflexivity. Qed.

(** ** Registering the exports of a module *)

Lemma registerNamed_cases (baseName key : string) (v : value) (st : State) :
  (key <> "default" /\ isToolDefinition v = true /\
   registerNamed baseName st (key, v) = registerTool (namedToolName baseName key) v baseName st)
  \/ ((key = "default" \/ isToolDefinition v = false) /\
      registerNamed baseName st (key, v) = st).
Proof.
  unfold registerNamed.
  destruct (String.eqb_spec key "default") as [->|Hk]; cbn; [right; auto|].
  destruct (isToolDefinition v); [left | right]; auto.
Qed.

Lemma elem_of_ownedBy_foldl (baseName : string) (l : list (string * value))
    (st : State) (name : string) :
  name ∈ ownedBy baseName (foldl (registerNamed baseName) st l) <->
  name ∈ ownedBy baseName st \/
  exists key v, (key, v) ∈ l /\ key <> "default" /\ isToolDefinition v = true /\
                name = namedToolName baseName key.
Proof.
  revert st. induction l as [|[k v] l IH]; intros st; cbn [foldl].
  - split; [auto | intros [?|(? & ? & Hin & _)]; [assumption|]].
    now apply elem_of_nil in Hin.
  - rewrite IH. destruct (registerNamed_cases baseName k v st) as [(Hk & Hv & ->)|[Hno ->]].
    + rewrite ownedBy_registerTool, decide_True by reflexivity.
      rewrite elem_of_union, elem_of_singleton. split.
      * intros [[? | ->] | (k' & v' & Hin & ?)]; [auto | right | right].
        -- exists k, v. split; [left | auto].
        -- exists k', v'. split; [now right | auto].
      * intros [?|(k' & v' & Hin & Hk' & Hv' & ->)]; [auto|].
        apply elem_of_cons in Hin as [[= -> ->]|Hin]; [auto|].
        right. exists k', v'. auto.
    + split.
      * intros [?|(k' & v' & Hin & ?)]; [auto|]. right. exists k', v'. split; [now right | auto].
      * intros [?|(k' & v' & Hin & Hk' & Hv' & ->)]; [auto|].
        apply elem_of_cons in Hin as [[= -> ->]|Hin].
        -- destruct Hno; congruence.
        -- right. exists k', v'. auto.
Qed.

Lemma ownedBy_foldl_other (baseName b : string) (l : list (string * value)) (st : State) :
  baseName <> b ->
  ownedBy b (foldl (registerNamed baseName) st l) = ownedBy b st.
Proof.
  intros Hne. revert st. induction l as [|[k v] l IH]; intros st; cbn [foldl]; [reflexivity|].
  rewrite IH. destruct (registerNamed_cases baseName k v st) as [(_ & _ & ->)|[_ ->]];
    [|reflexivity].
  now rewrite ownedBy_registerTool, decide_False.
Qed.

Lemma tools_foldl_other (baseName : string) (l : list (string * value))
    (st : State) (name : string) :
  (forall key v, (key, v) ∈ l -> key <> "default" -> isToolDefinition v = true ->
                 namedToolName baseName key <> name) ->
  _registeredTools (foldl (registerNamed baseName) st l) !! name =
  _registeredTools st !! name.
Proof.
  revert st. induction l as [|[k v] l IH]; intros st Hother; cbn [foldl]; [reflexivity|].
  rewrite IH by (intros k' v' Hin; apply (Hother k' v'); now right).
  destruct (registerNamed_cases baseName k v st) as [(Hk & Hv & ->)|[_ ->]]; [|reflexivity].
  rewrite registerTool_tools, lookup_insert_ne; [reflexivity|].
  apply (Hother k v); [left | assumption..].
Qed.

Lemma tools_foldl_named (baseName : string) (l : list (string * value))
    (st : State) (key : string) (v : value) :
  NoDup l.*1 -> (key, v) ∈ l -> key <> "default" -> isToolDefinition v = true ->
  _registeredTools (foldl (registerNamed baseName) st l) !! namedToolName baseName key =
  Some (entryOf v).
Proof.
  revert st. induction l as [|[k' v'] l IH]; intros st Hnd Hin Hk Hv.
  - now apply elem_of_nil in Hin.
  - cbn in Hnd. apply NoDup_cons in Hnd as [Hfresh Hnd]. cbn [foldl].
    apply elem_of_cons in Hin as [[= <- <-]|Hin]; [|now apply IH].
    rewrite tools_foldl_other.
    + destruct (registerNamed_cases baseName key v st) as [(_ & _ & ->)|[[?|?] _]];
        [|congruence..].
      now rewrite registerTool_tools, lookup_insert_eq.
    + intros k2 v2 Hin2 _ _ Heq. apply namedToolName_inj in Heq as ->.
      apply Hfresh. apply list_elem_of_fmap. now exists (key, v2).
Qed.

Lemma registerDefault_cases (baseName : string) (module : Module) (st : State) :
  (exists d, module !! "default" = Some d /\ isToolDefinition d = true /\
             registerDefault baseName module st = registerTool baseName d baseName st)
  \/ ((forall d, module !! "default" = Some d -> isToolDefinition d = false) /\
      registerDefault baseName module st = st).
Proof.
  unfold registerDefault. destruct (module !! "default") as [d|] eqn:Ed; cbn.
  - destruct (isToolDefinition d) eqn:Hd.
    + left. exists d. now rewrite (isToolDefinition_truthy d Hd).
    + right. rewrite andb_false_r. split; [now intros ? [= <-] | reflexivity].
  - right. split; [discriminate | reflexivity].
Qed.

Lemma elem_of_ownedBy_registerExports (baseName : string) (module : Module)
    (st : State) (name : string) :
  name ∈ ownedBy baseName (registerExports baseName module st) <->
  name ∈ ownedBy baseName st \/
  exists key v, module !! key = Some v /\ isToolDefinition v = true /\
                name = toolName baseName key.
Proof.
  unfold registerExports. rewrite elem_of_ownedBy_foldl. split.
  - intros [Hd|(key & v & Hin & Hk & Hv & ->)].
    + destruct (registerDefault_cases baseName module st) as [(d & Ed & Hv & Heq)|[_ Heq]];
        rewrite Heq in Hd; [|auto].
      rewrite ownedBy_registerTool, decide_True in Hd by reflexivity.
      apply elem_of_union in Hd as [? | ->%elem_of_singleton]; [auto|].
      right. exists "default", d. auto.
    + right. exists key, v. apply elem_of_map_to_list in Hin.
      unfold toolName. now rewrite (proj2 (String.eqb_neq key "default") Hk).
  - intros [Hin|(key & v & Hm & Hv & ->)].
    + left. destruct (registerDefault_cases baseName module st) as [(d & _ & _ & ->)|[_ ->]];
        [|assumption].
      rewrite ownedBy_registerTool, decide_True by reflexivity. apply elem_of_union. auto.
    + unfold toolName. destruct (String.eqb_spec key "default") as [->|Hk].
      * left. destruct (registerDefault_cases baseName module st)
          as [(d & Ed & _ & ->)|[Hno _]].
        -- rewrite ownedBy_registerTool, decide_True by reflexivity.
           apply elem_of_union. right. now apply elem_of_singleton.
        -- rewrite (Hno v Hm) in Hv. discriminate.
      * right. exists key, v. now rewrite elem_of_map_to_list.
Qed.

Lemma ownedBy_registerExports_other (baseName b : string) (module : Module) (st : State) :
  baseName <> b ->
  ownedBy b (registerExports baseName module st) = ownedBy b st.
Proof.
  intros Hne. unfold registerExports. rewrite ownedBy_foldl_other by assumption.
  destruct (registerDefault_cases baseName module st) as [(d & _ & _ & ->)|[_ ->]];
    [|reflexivity].
  now rewrite ownedBy_registerTool, decide_False.
Qed.

Lemma tools_registerExports (baseName : string) (module : Module) (st : State)
    (key : string) (v : value) :
  module !! key = Some v -> isToolDefinition v = true ->
  _registeredTools (registerExports baseName module st) !! toolName baseName key =
  Some (entryOf v).
Proof.
  intros Hm Hv. unfold registerExports, toolName.
  destruct (String.eqb_spec key "default") as [->|Hk].
  - rewrite tools_foldl_other by (intros; apply namedToolName_ne_base).
    destruct (registerDefault_cases baseName module st) as [(d & Ed & _ & ->)|[Hno _]].
    + rewrite registerTool_tools, lookup_insert_eq. congruence.
    + rewrite (Hno v Hm) in Hv. discriminate.
  - apply tools_foldl_named; [apply NoDup_fst_map_to_list | | assumption..].
    now apply elem_of_map_to_list.
Qed.

Lemma tools_registerExports_other (baseName : string) (module : Module) (st : State)
    (name : string) :
  (forall key v, module !! key = Some v -> isToolDefinition v = true ->
                 toolName baseName key <> name) ->
  _registeredTools (registerExports baseName module st) !! name =
  _registeredTools st !! name.
Proof.
  intros Hother. unfold registerExports. rewrite tools_foldl_other.
  - destruct (registerDefault_cases baseName module st) as [(d & Ed & Hd & ->)|[_ ->]];
      [|reflexivity].
    rewrite registerTool_tools, lookup_insert_ne; [reflexivity|].
    exact (Hother "default" d Ed Hd).
  - intros key v Hin Hk Hv. apply elem_of_map_to_list in Hin.
    specialize (Hother key v Hin Hv). unfold toolName in Hother.
    now rewrite (proj2 (String.eqb_neq key "default") Hk) in Hother.
Qed.

(** ** Loading one file *)

Lemma loadToolFile_toolFile (hotReload : bool) (w : World) (file : string) (st : State) :
  isToolFile file = true ->
  loadToolFile hotReload w file st =
  match loadModule hotReload w file with
  | Fulfilled module =>
      registerExports (stripExtension file) module
        (unregisterFileTools file (emit (CallLoadToolFile file) st))
  | Rejected r =>
      loadFailed file r (unregisterFileTools file (emit (CallLoadToolFile file) st))
  end.
Proof.
  unfold isToolFile, loadToolFile. intros Hf.
  destruct (endsWith file ".ts"), (endsWith file ".js"); try discriminate; reflexivity.
Qed.

Lemma loadToolFile_otherFile (hotReload : bool) (w : World) (file : string) (st : State) :
  isToolFile file = false ->
  loadToolFile hotReload w file st = emit (CallLoadToolFile file) st.
Proof.
  unfold isToolFile, loadToolFile. intros Hf.
  destruct (endsWith file ".ts"), (endsWith file ".js"); try discriminate; reflexivity.
Qed.

Lemma loadFailed_tables (file : string) (r : Reason) (st : State) :
  _registeredTools (loadFailed file r st) = _registeredTools st /\
  registeredTools (loadFailed file r st) = registeredTools st.
Proof.
  destruct r as [| |e]; cbn [loadFailed]; [| |destruct (bool_decide _)]; split; reflexivity.
Qed.

(** *** What a load adds to the trace *)

Section Projection.

Variable keep : Event -> bool.
Hypothesis keep_registering : forall name, keep (LogRegistering name) = false.
Hypothesis keep_unregistering :
  forall file toolNames, keep (LogUnregistering file toolNames) = false.

Lemma project_app (t1 t2 : list Event) :
  project keep (t1 ++ t2) = project keep t1 ++ project keep t2.
Proof. unfold project. apply filter_app. Qed.

Lemma project_emit (e : Event) (st : State) :
  project keep (trace (emit e st)) =
  project keep (trace st) ++ (if keep e then [e] else []).
Proof.
  cbn [trace emit]. rewrite project_app. f_equal. unfold project.
  rewrite filter_cons, filter_nil.
  destruct (keep e); [now rewrite decide_True | now rewrite decide_False].
Qed.

Lemma project_registerTool (name : string) (tool : value) (baseName : string) (st : State) :
  project keep (trace (registerTool name tool baseName st)) = project keep (trace st).
Proof.
  cbn [trace registerTool]. rewrite project_app. unfold project at 2.
  rewrite filter_cons, filter_nil, keep_registering, decide_False by discriminate.
  apply app_nil_r.
Qed.

Lemma project_unregisterFileTools (file : string) (st : State) :
  project keep (trace (unregisterFileTools file st)) = project keep (trace st).
Proof.
  unfold unregisterFileTools. destruct (registeredTools st !! stripExtension file);
    [|reflexivity].
  cbn [trace]. rewrite project_app. unfold project at 2.
  rewrite filter_cons, filter_nil, keep_unregistering, decide_False by discriminate.
  apply app_nil_r.
Qed.

Lemma project_registerExports (baseName : string) (module : Module) (st : State) :
  project keep (trace (registerExports baseName module st)) = project keep (trace st).
Proof.
  unfold registerExports.
  transitivity (project keep (trace (registerDefault baseName module st))).
  - generalize (registerDefault baseName module st). intros st0.
    generalize (map_to_list module). intros l. revert st0.
    induction l as [|[k v] l IH]; intros st0; cbn [foldl]; [reflexivity|].
    rewrite IH. destruct (registerNamed_cases baseName k v st0) as [(_ & _ & ->)|[_ ->]];
      [apply project_registerTool | reflexivity].
  - destruct (registerDefault_cases baseName module st) as [(d & _ & _ & ->)|[_ ->]];
      [apply project_registerTool | reflexivity].
Qed.

End Projection.

Lemma calls_app (t1 t2 : list Event) : calls (t1 ++ t2) = calls t1 ++ calls t2.
Proof. apply project_app. Qed.

Lemma calls_emit (e : Event) (st : State) :
  calls (trace (emit e st)) = calls (trace st) ++ (if isCall e then [e] else []).
Proof. apply project_emit. Qed.

Lemma calls_unregisterFileTools (file : string) (st : State) :
  calls (trace (unregisterFileTools file st)) = calls (trace st).
Proof. now apply project_unregisterFileTools. Qed.

Lemma calls_registerExports (baseName : string) (module : Module) (st : State) :
  calls (trace (registerExports baseName module st)) = calls (trace st).
Proof. now apply project_registerExports. Qed.

(** A load that succeeds logs no failure. *)
Lemma failures_loadToolFile_fulfilled (hotReload : bool) (w : World) (file : string)
    (st : State) (module : Module) :
  loadModule hotReload w file = Fulfilled module ->
  failures (trace (loadToolFile hotReload w file st)) = failures (trace st).
Proof.
  intros Hload. destruct (isToolFile file) eqn:Hf.
  - rewrite loadToolFile_toolFile, Hload by assumption. unfold failures.
    rewrite project_registerExports, project_unregisterFileTools, project_emit by reflexivity.
    apply app_nil_r.
  - rewrite loadToolFile_otherFile by assumption. unfold failures.
    rewrite project_emit. apply app_nil_r.
Qed.

Lemma ownedBy_loadToolFile (hotReload : bool) (w : World) (file : string)
    (st : State) (name : string) :
  isToolFile file = true ->
  name ∈ ownedBy (stripExtension file) (loadToolFile hotReload w file st) <->
  exists key v,
    exportsOf (loadModule hotReload w file) !! key = Some v /\
    isToolDefinition v = true /\
    name = toolName (stripExtension file) key.
Proof.
  intros Hf. rewrite loadToolFile_toolFile by assumption.
  destruct (loadModule hotReload w file) as [module|e]; cbn [exportsOf].
  - rewrite elem_of_ownedBy_registerExports, ownedBy_unregisterFileTools,
      decide_True by reflexivity.
    split; [intros [Hin|?]; [now apply not_elem_of_empty in Hin | assumption] | auto].
  - unfold ownedBy. rewrite (proj2 (loadFailed_tables _ _ _)).
    rewrite unregisterFileTools_tracked, lookup_delete_eq. cbn. split.
    + intros Hin. now apply not_elem_of_empty in Hin.
    + intros (key & v & Hm & _). now rewrite lookup_empty in Hm.
Qed.

Lemma loadToolFile_tool_names_aux (hotReload : bool) (w : World) (file : string)
    (st : State) (module : Module) (key : string) (v : value) :
  isToolFile file = true ->
  loadModule hotReload w file = Fulfilled module ->
  module !! key = Some v -> isToolDefinition v = true ->
  _registeredTools (loadToolFile hotReload w file st) !! toolName (stripExtension file) key
    = Some (entryOf v) /\
  toolName (stripExtension file) key ∈
    ownedBy (stripExtension file) (loadToolFile hotReload w file st).
Proof.
  intros Hf Hload Hm Hv. split.
  - rewrite loadToolFile_toolFile, Hload by assumption.
    now apply tools_registerExports.
  - apply ownedBy_loadToolFile; [assumption|]. rewrite Hload. cbn. eauto.
Qed.

(** The server's table after a reload, at a name the file does not own
    afterwards. *)
Lemma tools_loadToolFile_other (hotReload : bool) (w : World) (file : string)
    (st : State) (name : string) :
  isToolFile file = true ->
  name ∉ ownedBy (stripExtension file) (loadToolFile hotReload w file st) ->
  _registeredTools (loadToolFile hotReload w file st) !! name =
  if decide (name ∈ ownedBy (stripExtension file) st) then None
  else _registeredTools st !! name.
Proof.
  intros Hf Hnot.
  assert (Hder : forall key v, exportsOf (loadModule hotReload w file) !! key = Some v ->
            isToolDefinition v = true -> toolName (stripExtension file) key <> name).
  { intros key v Hm Hv <-. apply Hnot. apply ownedBy_loadToolFile; eauto. }
  rewrite loadToolFile_toolFile by assumption.
  destruct (loadModule hotReload w file) as [module|e]; cbn [exportsOf] in Hder.
  - rewrite tools_registerExports_other by exact Hder.
    now rewrite !unregisterFileTools_tools.
  - rewrite (proj1 (loadFailed_tables _ _ _)). now rewrite !unregisterFileTools_tools.
Qed.


(** C5. A tool file is its base name followed by its extension; an
    accepted default export is registered under the base name, and an
    accepted named export [e] under the base name, an underscore and
    [e]. *)
Theorem loadToolFile_tool_names (hotReload : bool) (w : World) (file : string)
    (st : State) (module : Module) :
  isToolFile file = true ->
  loadModule hotReload w file = Fulfilled module ->
  let b := stripExtension file in
  let st' := loadToolFile hotReload w file st in
  (file = b +:+ ".ts" \/ file = b +:+ ".js") /\
  (forall d, module !! "default" = Some d -> isToolDefinition d = true ->
             _registeredTools st' !! b = Some (entryOf d) /\ b ∈ ownedBy b st') /\
  (forall e v, e <> "default" -> module !! e = Some v -> isToolDefinition v = true ->
               _registeredTools st' !! (b +:+ "_" +:+ e) = Some (entryOf v) /\
               (b +:+ "_" +:+ e) ∈ ownedBy b st').
Proof.
  intros Hf Hload b st'.
  assert (Hreg : forall key v, module !! key = Some v -> isToolDefinition v = true ->
            _registeredTools st' !! toolName b key = Some (entryOf v) /\
            toolName b key ∈ ownedBy b st').
  { intros key v Hm Hv. now apply (loadToolFile_tool_names_aux _ _ _ _ module). }
  split; [now apply isToolFile_split|]. split.
  - intros d Hm Hv. exact (Hreg "default" d Hm Hv).
  - intros e v He Hm Hv. specialize (Hreg e v Hm Hv). unfold toolName in Hreg.
    now rewrite (proj2 (String.eqb_neq e "default") He) in Hreg.
Qed.

(** C6. The guard accepts exactly the non-null objects whose
    [description] is a string and whose [execute] is callable; of the
    exports of a loaded module, the accepted ones are registered and
    every other one is skipped: its name is not tracked for the file and
    the server's table is left, at that name, as unregistering left
    it. The load logs no failure. *)
Theorem only_tool_definitions_registered (hotReload : bool) (w : World)
    (file : string) (st : State) (module : Module) (key : string) (v : value) :
  isToolFile file = true ->
  loadModule hotReload w file = Fulfilled module ->
  module !! key = Some v ->
  let b := stripExtension file in
  let st' := loadToolFile hotReload w file st in
  (isToolDefinition v = true <->
   exists props s f, v = VObject props /\ getProp "description" v = VString s /\
                     getProp "execute" v = VFunction f) /\
  (isToolDefinition v = true <->
   toolName b key ∈ ownedBy b st' /\
   _registeredTools st' !! toolName b key = Some (entryOf v)) /\
  (isToolDefinition v = false ->
   (toolName b key ∉ ownedBy b st') /\
   _registeredTools st' !! toolName b key =
   _registeredTools (unregisterFileTools file st) !! toolName b key) /\
  failures (trace st') = failures (trace st).
Proof.
  intros Hf Hload Hm b st'. split; [apply isToolDefinition_spec|].
  assert (Hfail : failures (trace st') = failures (trace st))
    by now apply (failures_loadToolFile_fulfilled _ _ _ _ module).
  assert (Hown : toolName b key ∈ ownedBy b st' -> isToolDefinition v = true).
  { intros Hin. apply ownedBy_loadToolFile in Hin as (key' & v' & Hm' & Hv' & Heq);
      [|assumption].
    rewrite Hload in Hm'. cbn in Hm'. apply toolName_inj in Heq as <-. congruence. }
  split; [split | split; [|exact Hfail]].
  - intros Hv. destruct (loadToolFile_tool_names_aux hotReload w file st module key v)
      as [? ?]; auto.
  - intros [Hin _]. auto.
  - intros Hv. split.
    + intros Hin. rewrite (Hown Hin) in Hv. discriminate.
    + subst st' b. rewrite loadToolFile_toolFile, Hload by assumption.
      rewrite tools_registerExports_other.
      * now rewrite !unregisterFileTools_tools.
      * intros key' v' Hm' Hv' Heq. apply toolName_inj in Heq as ->. congruence.
Qed.

(** ** The adapter *)

Lemma invoke_entryOf (tool args extra : value) :
  invokeCallback (callback (entryOf tool)) args extra =
  (result ← execute tool (passedArgs tool args) extra; mret (response result)).
Proof. unfold entryOf, passedArgs. now destruct (truthy (schemaOf tool)). Qed.

Lemma handler_fulfilled (tool args extra result : value) :
  execute tool (passedArgs tool args) extra = Fulfilled result ->
  invokeCallback (callback (entryOf tool)) args extra = Fulfilled (response result).
Proof. intros He. now rewrite invoke_entryOf, He. Qed.

(** C2, as the code has it. When [execute] throws or rejects, the
    handler registered for the tool does not catch the failure: its own
    promise rejects with the same reason, which goes to the server that
    called it. *)
Theorem handler_rejects_with_execute_failure (tool args extra : value) (r : Reason) :
  execute tool (passedArgs tool args) extra = Rejected r ->
  invokeCallback (callback (entryOf tool)) args extra = Rejected r.
Proof. intros He. now rewrite invoke_entryOf, He. Qed.

Lemma lookupProp_filter_ne (key skip : string) (props : list (string * value)) :
  key <> skip ->
  lookupProp key (filter (fun kv => kv.1 <> skip) props) = lookupProp key props.
Proof.
  intros Hne. induction props as [|[k v] props IH]; [reflexivity|].
  rewrite filter_cons. cbn [fst]. destruct (decide (k <> skip)) as [Hk|Hk]; cbn.
  - now rewrite IH.
  - apply dec_stable in Hk as ->. rewrite IH.
    now rewrite (proj2 (String.eqb_neq skip key)).
Qed.

Lemma lookupProp_filter_eq (skip : string) (props : list (string * value)) :
  lookupProp skip (filter (fun kv => kv.1 <> skip) props) = None.
Proof.
  induction props as [|[k v] props IH]; [reflexivity|].
  rewrite filter_cons. cbn [fst]. destruct (decide (k <> skip)) as [Hk|Hk]; cbn; [|exact IH].
  now rewrite (proj2 (String.eqb_neq k skip)).
Qed.

Lemma getProp_withoutArgs (key : string) (tool : value) :
  key <> "args" -> getProp key (withoutArgs tool) = getProp key tool.
Proof.
  intros Hne. destruct tool; try reflexivity. cbn.
  now rewrite lookupProp_filter_ne.
Qed.

Lemma schemaOf_empty_args (tool : value) :
  getProp "args" tool = VObject [] -> schemaOf tool = VUndefined.
Proof. unfold schemaOf. now intros ->. Qed.

Lemma schemaOf_withoutArgs (tool : value) : schemaOf (withoutArgs tool) = VUndefined.
Proof.
  unfold schemaOf. destruct tool; try reflexivity. cbn.
  now rewrite lookupProp_filter_eq.
Qed.

(** C10. A tool whose [args] is an object without keys is registered
    as the same tool without [args] is: no schema goes to the server,
    the callback takes the context alone and calls [execute] with the
    empty object, and the bookkeeping and the log are the same. *)
Theorem empty_args_registered_as_absent (name : string) (tool : value)
    (baseName : string) (st : State) :
  getProp "args" tool = VObject [] ->
  let st1 := registerTool name tool baseName st in
  let st2 := registerTool name (withoutArgs tool) baseName st in
  registeredTools st1 = registeredTools st2 /\
  trace st1 = trace st2 /\
  (forall other, other <> name ->
     _registeredTools st1 !! other = _registeredTools st2 !! other) /\
  exists h1 h2,
    _registeredTools st1 !! name =
      Some {| description := getProp "description" tool;
              inputSchema := None; callback := NoArgs h1 |} /\
    _registeredTools st2 !! name =
      Some {| description := getProp "description" tool;
              inputSchema := None; callback := NoArgs h2 |} /\
    forall extra,
      h1 extra = h2 extra /\
      h1 extra = (result ← execute tool (VObject []) extra; mret (response result)).
Proof.
  intros Hargs st1 st2. subst st1 st2.
  split; [reflexivity|]. split; [reflexivity|]. split.
  - intros other Hne. now rewrite !registerTool_tools, !lookup_insert_ne.
  - exists (handlerNoArgs tool), (handlerNoArgs (withoutArgs tool)).
    rewrite !registerTool_tools, !lookup_insert_eq. unfold entryOf.
    rewrite schemaOf_withoutArgs, (schemaOf_empty_args tool Hargs). cbn [truthy].
    rewrite getProp_withoutArgs by discriminate.
    split; [reflexivity|]. split; [reflexivity|].
    intros extra. split; [|reflexivity].
    unfold handlerNoArgs, execute. now rewrite getProp_withoutArgs by discriminate.
Qed.

(** ** The load URL *)

Lemma importUrl_hot_inj (fileUrl : string) (t1 t2 : Z) :
  importUrl true fileUrl t1 = importUrl true fileUrl t2 -> t1 = t2.
Proof.
  unfold importUrl. intros Heq.
  apply (inj (String.append fileUrl)) in Heq.
  apply (inj (String.append "?t=")) in Heq.
  now apply (inj pretty) in Heq.
Qed.

(** C7, as the code has it. With hot reload on, the load URL is the
    file URL followed by [?t=] and the clock reading, so two loads of a
    file at different clock readings use different URLs; with hot reload
    off, the load URL is the file URL itself. *)
Theorem importUrl_distinct_when_hot (fileUrl : string) (t1 t2 : Z) :
  t1 <> t2 ->
  importUrl true fileUrl t1 <> importUrl true fileUrl t2 /\
  importUrl true fileUrl t1 = fileUrl +:+ "?t=" +:+ pretty t1 /\
  importUrl false fileUrl t1 = fileUrl.
Proof.
  intros Hne. split; [|split; reflexivity].
  intros Heq. now apply importUrl_hot_inj in Heq.
Qed.

(** ** Batches *)

Lemma loadToolFileRejects_otherFile (hotReload : bool) (w : World) (file : string) :
  isToolFile file = false -> loadToolFileRejects hotReload w file = None.
Proof.
  unfold isToolFile, loadToolFileRejects. intros Hf.
  destruct (endsWith file ".ts"), (endsWith file ".js"); try discriminate; reflexivity.
Qed.

Lemma loadToolFileRejects_toolFile (hotReload : bool) (w : World) (file : string) :
  isToolFile file = true ->
  loadToolFileRejects hotReload w file =
  match loadModule hotReload w file with
  | Fulfilled _ => None
  | Rejected r => catchThrows r
  end.
Proof.
  unfold isToolFile, loadToolFileRejects. intros Hf.
  destruct (endsWith file ".ts"), (endsWith file ".js"); try discriminate; reflexivity.
Qed.

(** [loadToolFile] is rejected exactly when the load of a tool file is
    rejected with [null] or [undefined]. *)
Lemma loadToolFileRejects_Some (hotReload : bool) (w : World) (file : string) :
  is_Some (loadToolFileRejects hotReload w file) <->
  isToolFile file = true /\
  (loadModule hotReload w file = Rejected ThrownNull \/
   loadModule hotReload w file = Rejected ThrownUndefined).
Proof.
  destruct (isToolFile file) eqn:Hf.
  - rewrite loadToolFileRejects_toolFile by assumption.
    destruct (loadModule hotReload w file) as [m|[| |e]]; cbn [catchThrows]; split;
      try (intros [x Hx]; discriminate Hx);
      try (intros [_ [Hx|Hx]]; discriminate Hx); eauto.
  - rewrite loadToolFileRejects_otherFile by assumption. split.
    + intros [x Hx]. discriminate Hx.
    + intros [Hx _]. discriminate Hx.
Qed.

Lemma loadFiles_cons (hotReload : bool) (worlds : string -> World)
    (file : string) (rest : list string) (st : State) :
  loadFiles hotReload worlds (file :: rest) st =
  match loadToolFileRejects hotReload (worlds file) file with
  | Some _ => loadToolFile hotReload (worlds file) file st
  | None => loadFiles hotReload worlds rest (loadToolFile hotReload (worlds file) file st)
  end.
Proof. reflexivity. Qed.

Lemma loadFilesRejects_app (hotReload : bool) (worlds : string -> World)
    (l1 l2 : list string) :
  loadFilesRejects hotReload worlds (l1 ++ l2) =
  match loadFilesRejects hotReload worlds l1 with
  | Some e => Some e
  | None => loadFilesRejects hotReload worlds l2
  end.
Proof.
  induction l1 as [|file l1 IH]; [reflexivity|]. cbn [app loadFilesRejects].
  now destruct (loadToolFileRejects hotReload (worlds file) file).
Qed.

(** As long as no [loadToolFile] is rejected the loop goes through the
    whole list. *)
Lemma loadFiles_app (hotReload : bool) (worlds : string -> World)
    (l1 l2 : list string) (st : State) :
  loadFilesRejects hotReload worlds l1 = None ->
  loadFiles hotReload worlds (l1 ++ l2) st =
  loadFiles hotReload worlds l2 (loadFiles hotReload worlds l1 st).
Proof.
  revert st. induction l1 as [|file l1 IH]; intros st Hok; [reflexivity|].
  cbn [app]. rewrite !loadFiles_cons. cbn [loadFilesRejects] in Hok.
  destruct (loadToolFileRejects hotReload (worlds file) file); [discriminate|].
  now apply IH.
Qed.

Lemma loadFiles_snoc (hotReload : bool) (worlds : string -> World)
    (l : list string) (file : string) (st : State) :
  loadFilesRejects hotReload worlds l = None ->
  loadFiles hotReload worlds (l ++ [file]) st =
  loadToolFile hotReload (worlds file) file (loadFiles hotReload worlds l st).
Proof.
  intros Hok. rewrite loadFiles_app by assumption. rewrite loadFiles_cons.
  now destruct (loadToolFileRejects hotReload (worlds file) file).
Qed.

(** The log line of a failure the [catch] clause can read. *)
Lemma failures_loadFailed (file : string) (e : Error) (st : State) :
  failures (trace (loadFailed file e st)) =
  failures (trace st) ++
  [if bool_decide (code e = Some "ENOENT") then LogFileDeleted file
   else LogFailedToLoad file (if String.eqb (message e) "" then inr e else inl (message e))].
Proof.
  cbn [loadFailed]. unfold failures.
  destruct (bool_decide (code e = Some "ENOENT")); now rewrite project_emit.
Qed.

Lemma calls_loadFailed (file : string) (r : Reason) (st : State) :
  calls (trace (loadFailed file r st)) = calls (trace st).
Proof.
  destruct r as [| |e]; cbn [loadFailed]; [reflexivity..|].
  destruct (bool_decide _); rewrite calls_emit; apply app_nil_r.
Qed.

Lemma calls_loadToolFile (hotReload : bool) (w : World) (file : string) (st : State) :
  calls (trace (loadToolFile hotReload w file st)) =
  calls (trace st) ++ [CallLoadToolFile file].
Proof.
  destruct (isToolFile file) eqn:Hf.
  - rewrite loadToolFile_toolFile by assumption.
    destruct (loadModule hotReload w file).
    + now rewrite calls_registerExports, calls_unregisterFileTools, calls_emit.
    + now rewrite calls_loadFailed, calls_unregisterFileTools, calls_emit.
  - rewrite loadToolFile_otherFile by assumption. now rewrite calls_emit.
Qed.

(** In a batch, a tool file whose load fails with a reason the [catch]
    clause can read ends with no tool tracked or live for it: the reload
    removes what the file owned before and touches nothing else, the
    failure adds one log line and no call, and the rest of the batch is
    processed from that state. *)
Lemma load_failure_contained (hotReload : bool) (worlds : string -> World)
    (pre post : list string) (f : string) (e : Error) (st : State) :
  isToolFile f = true ->
  loadModule hotReload (worlds f) f = Rejected e ->
  loadFilesRejects hotReload worlds pre = None ->
  let before := loadFiles hotReload worlds pre st in
  let after := loadFiles hotReload worlds (pre ++ [f]) st in
  registeredTools after !! stripExtension f = None /\
  (forall name, name ∈ ownedBy (stripExtension f) before ->
                _registeredTools after !! name = None) /\
  (forall b, b <> stripExtension f ->
             registeredTools after !! b = registeredTools before !! b) /\
  (forall name, name ∉ ownedBy (stripExtension f) before ->
                _registeredTools after !! name = _registeredTools before !! name) /\
  failures (trace after) =
    failures (trace before) ++
    [if bool_decide (code e = Some "ENOENT") then LogFileDeleted f
     else LogFailedToLoad f (if String.eqb (message e) "" then inr e else inl (message e))] /\
  calls (trace after) = calls (trace before) ++ [CallLoadToolFile f] /\
  loadFiles hotReload worlds (pre ++ f :: post) st =
    loadFiles hotReload worlds post after.
Proof.
  intros Hf Hload Hpre before after.
  assert (Hafter : after =
            loadFailed f e (unregisterFileTools f (emit (CallLoadToolFile f) before))).
  { subst after before. now rewrite loadFiles_snoc, loadToolFile_toolFile, Hload. }
  destruct (loadFailed_tables f e
              (unregisterFileTools f (emit (CallLoadToolFile f) before))) as [Ht Hr].
  rewrite <- Hafter in Ht, Hr.
  split; [|split; [|split; [|split; [|split; [|split]]]]].
  - now rewrite Hr, unregisterFileTools_tracked, lookup_delete_eq.
  - intros name Hin. rewrite Ht, unregisterFileTools_tools.
    now rewrite decide_True by exact Hin.
  - intros b Hb. rewrite Hr, unregisterFileTools_tracked. now rewrite lookup_delete_ne.
  - intros name Hin. rewrite Ht, unregisterFileTools_tools.
    now rewrite decide_False by exact Hin.
  - rewrite Hafter, failures_loadFailed. unfold failures.
    rewrite project_unregisterFileTools, project_emit by reflexivity.
    cbn [isFailureLog]. now rewrite app_nil_r.
  - subst after. rewrite loadFiles_snoc by assumption. apply calls_loadToolFile.
  - subst after. rewrite <- loadFiles_app.
    + now rewrite <- app_assoc.
    + rewrite loadFilesRejects_app, Hpre. cbn [loadFilesRejects].
      now rewrite loadToolFileRejects_toolFile, Hload by assumption.
Qed.

(** A [loadToolFile] that is rejected ends the batch: the state is the
    one it left, and no file after it is loaded. *)
Lemma loadFiles_rejected (hotReload : bool) (worlds : string -> World)
    (pre post : list string) (f : string) (e : Error) (st : State) :
  loadFilesRejects hotReload worlds pre = None ->
  loadToolFileRejects hotReload (worlds f) f = Some e ->
  loadFiles hotReload worlds (pre ++ f :: post) st =
    loadToolFile hotReload (worlds f) f (loadFiles hotReload worlds pre st) /\
  loadFilesRejects hotReload worlds (pre ++ f :: post) = Some e.
Proof.
  intros Hpre Hrej. split.
  - rewrite loadFiles_app by assumption. now rewrite loadFiles_cons, Hrej.
  - rewrite loadFilesRejects_app, Hpre. cbn [loadFilesRejects]. now rewrite Hrej.
Qed.

Lemma calls_loadFiles (hotReload : bool) (worlds : string -> World)
    (files : list string) (st : State) :
  loadFilesRejects hotReload worlds files = None ->
  calls (trace (loadFiles hotReload worlds files st)) =
  calls (trace st) ++ map CallLoadToolFile files.
Proof.
  revert st. induction files as [|file files IH]; intros st Hok.
  - cbn. now rewrite app_nil_r.
  - rewrite loadFiles_cons. cbn [loadFilesRejects] in Hok.
    destruct (loadToolFileRejects hotReload (worlds file) file); [discriminate|].
    rewrite IH, calls_loadToolFile by assumption. now rewrite <- app_assoc.
Qed.

Lemma calls_notifyListChanged (sent : settled unit) (st : State) :
  calls (trace (notifyListChanged sent st)) = calls (trace st) ++ [CallSendToolListChanged].
Proof.
  unfold notifyListChanged. destruct sent; rewrite ?calls_emit; cbn [isCall];
    now rewrite ?app_nil_r.
Qed.

Lemma calls_timer_callback (worlds : string -> World) (sent : settled unit) (p : Process) :
  timer_callback_rejects worlds p = None ->
  calls (trace (state (timer_callback worlds sent p))) =
  calls (trace (state p)) ++ map CallLoadToolFile (pendingReloads p) ++
  (if bool_decide (pendingReloads p = []) then [] else [CallSendToolListChanged]).
Proof.
  unfold timer_callback, timer_callback_rejects. intros Hok. cbn [state]. rewrite Hok.
  destruct (pendingReloads p) as [|f batch] eqn:Eb.
  - cbn. now rewrite app_nil_r.
  - rewrite bool_decide_true by (cbn; lia). rewrite bool_decide_false by discriminate.
    rewrite calls_notifyListChanged, calls_loadFiles by assumption.
    now rewrite <- app_assoc.
Qed.

(** ** The debounced watcher *)

Lemma setAdd_NoDup (x : string) (l : list string) : NoDup l -> NoDup (setAdd x l).
Proof.
  intros Hnd. unfold setAdd. case_bool_decide; [assumption|].
  apply NoDup_app. split; [assumption|]. split.
  - intros y Hy ->%list_elem_of_singleton. contradiction.
  - apply NoDup_singleton.
Qed.

Lemma elem_of_setAdd (x y : string) (l : list string) :
  y ∈ setAdd x l <-> y = x \/ y ∈ l.
Proof.
  unfold setAdd. case_bool_decide.
  - split; [auto | intros [->|?]; assumption].
  - rewrite elem_of_app, list_elem_of_singleton. tauto.
Qed.

Lemma watch_callback_cases (now : Z) (eventType : string) (filename : option string)
    (p : Process) :
  let p' := watch_callback now eventType filename p in
  calls (trace (state p')) = calls (trace (state p)) /\
  ((exists fn, filename = Some fn /\ isToolFile fn = true /\
               pendingReloads p' = setAdd fn (pendingReloads p) /\
               reloadTimeout p' = Some (now + 100))
   \/ ((forall fn, filename = Some fn -> isToolFile fn = false) /\
       pendingReloads p' = pendingReloads p /\
       reloadTimeout p' = reloadTimeout p)).
Proof.
  unfold watch_callback, isToolFile. destruct filename as [fn|]; cbn -[emit calls].
  - destruct (String.eqb_spec fn "") as [->|Hne]; cbn -[emit calls].
    + split; [rewrite calls_emit; apply app_nil_r|]. right.
      split; [now intros ? [= <-] | auto].
    + destruct (endsWith fn ".ts" || endsWith fn ".js") eqn:Hf; cbn -[emit calls].
      * split; [rewrite !calls_emit; cbn; now rewrite !app_nil_r|]. left. eauto.
      * split; [rewrite calls_emit; apply app_nil_r|]. right.
        split; [now intros ? [= <-] | auto].
  - split; [rewrite calls_emit; apply app_nil_r|]. right. split; [discriminate | auto].
Qed.

Lemma accumulate_spec (events : list FsEvent) (p : Process) :
  NoDup (pendingReloads p) ->
  let p' := accumulate events p in
  NoDup (pendingReloads p') /\
  calls (trace (state p')) = calls (trace (state p)) /\
  (forall f, f ∈ pendingReloads p' <->
             f ∈ pendingReloads p \/
             (isToolFile f = true /\ exists ev, ev ∈ events /\ filename ev = Some f)).
Proof.
  revert p. induction events as [|ev events IH]; intros p Hnd.
  - cbn. split; [assumption|]. split; [reflexivity|]. intros f. split; [auto|].
    intros [?|(_ & ev & Hin & _)]; [assumption | now apply elem_of_nil in Hin].
  - change (accumulate (ev :: events) p)
      with (accumulate events (watch_callback (at_ ev) (eventType ev) (filename ev) p)).
    set (p1 := watch_callback (at_ ev) (eventType ev) (filename ev) p).
    destruct (watch_callback_cases (at_ ev) (eventType ev) (filename ev) p)
      as [Hcalls Hcases]. fold p1 in Hcalls, Hcases. cbv zeta.
    assert (Hnd1 : NoDup (pendingReloads p1)).
    { destruct Hcases as [(fn & _ & _ & -> & _)|(_ & -> & _)];
        [now apply setAdd_NoDup | assumption]. }
    destruct (IH p1 Hnd1) as (Hnd' & Hc' & Hmem).
    split; [exact Hnd'|]. split; [now rewrite Hc'|].
    intros f. rewrite Hmem.
    destruct Hcases as [(fn & Hfn & Htool & -> & _)|(Hno & -> & _)].
    + rewrite elem_of_setAdd. split.
      * intros [[->|?]|(? & ev' & Hin & ?)]; [right | auto | right].
        -- split; [assumption|]. exists ev. split; [left | assumption].
        -- split; [assumption|]. exists ev'. split; [now right | assumption].
      * intros [?|(Hf & ev' & Hin & Hev')]; [auto|].
        apply elem_of_cons in Hin as [->|Hin].
        -- left. left. congruence.
        -- right. split; [assumption|]. now exists ev'.
    + split.
      * intros [?|(? & ev' & Hin & ?)]; [auto | right].
        split; [assumption|]. exists ev'. split; [now right | assumption].
      * intros [?|(Hf & ev' & Hin & Hev')]; [auto|].
        apply elem_of_cons in Hin as [->|Hin].
        -- rewrite (Hno f Hev') in Hf. discriminate.
        -- right. split; [assumption|]. now exists ev'.
Qed.

(** Events that all fall within one quiescence window never let the
    timer fire in between: the event loop only accumulates. *)
Lemma run_within_window (worlds : string -> World) (sent : settled unit)
    (events : list FsEvent) (p : Process) (t0 : Z) :
  (forall ev, ev ∈ events -> t0 <= at_ ev < t0 + 100) ->
  (forall d, reloadTimeout p = Some d -> t0 + 100 <= d) ->
  run worlds sent events p = accumulate events p.
Proof.
  revert p. induction events as [|ev events IH]; intros p Hwin Hd; [reflexivity|].
  change (run worlds sent (ev :: events) p)
    with (run worlds sent events (deliver worlds sent p ev)).
  change (accumulate (ev :: events) p)
    with (accumulate events (watch_callback (at_ ev) (eventType ev) (filename ev) p)).
  assert (Hev : t0 <= at_ ev < t0 + 100) by (apply Hwin; left).
  assert (Hexp : expire worlds sent (at_ ev) p = p).
  { unfold expire. destruct (reloadTimeout p) as [d|] eqn:Ed; [|reflexivity].
    specialize (Hd d eq_refl). destruct (Z.leb_spec d (at_ ev)); [lia | reflexivity]. }
  unfold deliver. rewrite Hexp. apply IH.
  - intros ev' Hin. apply Hwin. now right.
  - intros d Ed.
    destruct (watch_callback_cases (at_ ev) (eventType ev) (filename ev) p)
      as [_ [(fn & _ & _ & _ & Ht)|(_ & _ & Ht)]]; rewrite Ht in Ed.
    + injection Ed as <-. lia.
    + now apply Hd.
Qed.

(** Events that all fall within one quiescence window, from an idle
    watcher: the timer does not fire before its deadline, 100 ms after
    the last event that named a tool file; when it fires, and no
    [loadToolFile] of the batch is rejected, each tool file the events
    named is reloaded once, then one notification is sent, whatever the
    loads and the notification did; and the watcher is idle again. *)
Lemma debounced_batch (worlds : string -> World) (sent : settled unit)
    (events : list FsEvent) (st : State) (t0 now : Z) :
  (forall ev, ev ∈ events -> t0 <= at_ ev < t0 + 100) ->
  let p1 := run worlds sent events
              {| state := st; reloadTimeout := None; pendingReloads := [] |} in
  let batch := pendingReloads p1 in
  let p2 := expire worlds sent now p1 in
  timer_callback_rejects worlds p1 = None ->
  NoDup batch /\
  (forall f, f ∈ batch <->
             isToolFile f = true /\ exists ev, ev ∈ events /\ filename ev = Some f) /\
  calls (trace (state p1)) = calls (trace st) /\
  (forall deadline, reloadTimeout p1 = Some deadline -> deadline <= now ->
     calls (trace (state p2)) =
       calls (trace st) ++ map CallLoadToolFile batch ++
       (if bool_decide (batch = []) then [] else [CallSendToolListChanged]) /\
     pendingReloads p2 = [] /\
     reloadTimeout p2 = None) /\
  (forall deadline, reloadTimeout p1 = Some deadline -> now < deadline -> p2 = p1).
Proof.
  intros Hwin p1 batch p2 Hok.
  assert (Hrun : p1 = accumulate events
                        {| state := st; reloadTimeout := None; pendingReloads := [] |}).
  { subst p1. apply (run_within_window _ _ _ _ t0); [exact Hwin | discriminate]. }
  destruct (accumulate_spec events
              {| state := st; reloadTimeout := None; pendingReloads := [] |})
    as (Hnd & Hcalls & Hmem); [apply NoDup_nil_2|].
  rewrite <- Hrun in Hnd, Hcalls, Hmem. fold batch in Hnd, Hmem. cbn in Hcalls.
  split; [exact Hnd|]. split; [|split; [exact Hcalls|split]].
  - intros f. rewrite Hmem. cbn. split; [|auto].
    intros [Hin|?]; [now apply elem_of_nil in Hin | assumption].
  - intros deadline Hd Hle. subst p2. unfold expire. rewrite Hd.
    destruct (Z.leb_spec deadline now); [|lia].
    rewrite calls_timer_callback, Hcalls by assumption. repeat split.
  - intros deadline Hd Hlt. subst p2. unfold expire. rewrite Hd.
    destruct (Z.leb_spec deadline now); [lia | reflexivity].
Qed.

(** ** The hot-reload switch *)

Lemma loadModule_switch (w : World) (file : string) :
  queryInsensitive w -> loadModule false w file = loadModule true w file.
Proof.
  intros Hq. unfold loadModule, importUrl.
  destruct (stat w (join toolDir file)); [|reflexivity].
  cbn. symmetry. apply Hq.
Qed.

Lemma loadToolFile_switch (w : World) (file : string) (st : State) :
  queryInsensitive w -> loadToolFile false w file st = loadToolFile true w file st.
Proof. intros Hq. unfold loadToolFile. now rewrite loadModule_switch. Qed.

Lemma loadToolFileRejects_switch (w : World) (file : string) :
  queryInsensitive w -> loadToolFileRejects false w file = loadToolFileRejects true w file.
Proof. intros Hq. unfold loadToolFileRejects. now rewrite loadModule_switch. Qed.

Lemma loadFiles_switch (worlds : string -> World) (files : list string) (st : State) :
  (forall file, queryInsensitive (worlds file)) ->
  loadFiles false worlds files st = loadFiles true worlds files st.
Proof.
  intros Hq. revert st. induction files as [|file files IH]; intros st; [reflexivity|].
  rewrite !loadFiles_cons.
  now rewrite loadToolFile_switch, loadToolFileRejects_switch, IH.
Qed.

Lemma loadFilesRejects_switch (worlds : string -> World) (files : list string) :
  (forall file, queryInsensitive (worlds file)) ->
  loadFilesRejects false worlds files = loadFilesRejects true worlds files.
Proof.
  intros Hq. induction files as [|file files IH]; [reflexivity|].
  cbn [loadFilesRejects]. now rewrite loadToolFileRejects_switch, IH.
Qed.

Lemma sameTables_emit_l (e : Event) (st1 st2 : State) :
  sameTables st1 st2 -> sameTables (emit e st1) st2.
Proof. intros H12. exact H12. Qed.

Lemma sameTables_emit_r (e : Event) (st1 st2 : State) :
  sameTables st1 st2 -> sameTables st1 (emit e st2).
Proof. intros H12. exact H12. Qed.

Lemma sameTables_unregisterFileTools (file : string) (st1 st2 : State) :
  sameTables st1 st2 ->
  sameTables (unregisterFileTools file st1) (unregisterFileTools file st2).
Proof.
  intros [Ht Hr]. unfold unregisterFileTools. rewrite Hr.
  destruct (registeredTools st2 !! stripExtension file); split; cbn; congruence.
Qed.

Lemma sameTables_registerTool (name : string) (tool : value) (baseName : string)
    (st1 st2 : State) :
  sameTables st1 st2 ->
  sameTables (registerTool name tool baseName st1) (registerTool name tool baseName st2).
Proof. intros [Ht Hr]. unfold registerTool. split; cbn; now rewrite ?Ht, ?Hr. Qed.

Lemma sameTables_registerExports (baseName : string) (module : Module) (st1 st2 : State) :
  sameTables st1 st2 ->
  sameTables (registerExports baseName module st1) (registerExports baseName module st2).
Proof.
  intros H12. unfold registerExports.
  assert (Hd : sameTables (registerDefault baseName module st1)
                          (registerDefault baseName module st2)).
  { unfold registerDefault. destruct (_ && _); [now apply sameTables_registerTool | exact H12]. }
  revert Hd. generalize (registerDefault baseName module st1)
                        (registerDefault baseName module st2).
  induction (map_to_list module) as [|[k v] l IH]; intros s1 s2 Hs; cbn [foldl]; [exact Hs|].
  apply IH. unfold registerNamed.
  destruct (_ && _); [now apply sameTables_registerTool | exact Hs].
Qed.

Lemma sameTables_loadToolFile (hotReload : bool) (w : World) (file : string)
    (st1 st2 : State) :
  sameTables st1 st2 ->
  sameTables (loadToolFile hotReload w file st1) (loadToolFile hotReload w file st2).
Proof.
  intros H12. unfold loadToolFile. destruct (_ && _); [exact H12|].
  assert (Hu : sameTables (unregisterFileTools file (emit (CallLoadToolFile file) st1))
                          (unregisterFileTools file (emit (CallLoadToolFile file) st2))).
  { apply sameTables_unregisterFileTools. exact H12. }
  destruct (loadModule hotReload w file) as [module|r].
  - now apply sameTables_registerExports.
  - destruct Hu as [Ht Hr].
    split; [rewrite !(proj1 (loadFailed_tables _ _ _)) | rewrite !(proj2 (loadFailed_tables _ _ _))];
      assumption.
Qed.

Lemma sameTables_loadFiles (hotReload : bool) (worlds : string -> World)
    (files : list string) (st1 st2 : State) :
  sameTables st1 st2 ->
  sameTables (loadFiles hotReload worlds files st1) (loadFiles hotReload worlds files st2).
Proof.
  revert st1 st2. induction files as [|file files IH]; intros st1 st2 H12; [exact H12|].
  rewrite !loadFiles_cons.
  destruct (loadToolFileRejects hotReload (worlds file) file);
    [|apply IH]; apply sameTables_loadToolFile, H12.
Qed.

Lemma calls_loadFiles_eq (hotReload : bool) (worlds : string -> World)
    (files : list string) (st1 st2 : State) :
  calls (trace st1) = calls (trace st2) ->
  calls (trace (loadFiles hotReload worlds files st1)) =
  calls (trace (loadFiles hotReload worlds files st2)).
Proof.
  revert st1 st2. induction files as [|file files IH]; intros st1 st2 H12; [exact H12|].
  rewrite !loadFiles_cons.
  destruct (loadToolFileRejects hotReload (worlds file) file); [|apply IH];
    now rewrite !calls_loadToolFile, H12.
Qed.

(** One directory, scanned with hot reload off and with hot reload on
    (the two values of the switch on one platform, so with the same
    [process.argv[2]]): the loader ends with the same tool table (names,
    descriptions, schemas and callbacks) and the same bookkeeping, after
    the same calls of [loadToolFile]. With hot reload off nothing is
    watched and no capability is declared; with hot reload on the
    capability is declared, and the watcher is installed unless [watch]
    throws, which ends the script. *)
Lemma hot_reload_switch_only_stops_watching
    (readdir : settled (list string)) (watched_off watched : settled unit)
    (worlds : string -> World) :
  (forall file, queryInsensitive (worlds file)) ->
  let off := startup false readdir watched_off worlds in
  let on := startup true readdir watched worlds in
  _registeredTools (state (process off)) = _registeredTools (state (process on)) /\
  registeredTools (state (process off)) = registeredTools (state (process on)) /\
  calls (trace (state (process off))) = calls (trace (state (process on))) /\
  pendingReloads (process off) = pendingReloads (process on) /\
  watching off = false /\ listChanged off = false /\ uncaught off = None /\
  listChanged on = true /\
  match watched with
  | Fulfilled _ => watching on = true /\ uncaught on = None
  | Rejected r => watching on = false /\ uncaught on = Some r
  end.
Proof.
  intros Hq off on. subst off on. unfold startup.
  assert (Hsame : sameTables
            (loadAllTools false readdir worlds (emit (LogHotReload false toolDir) initialState))
            (loadAllTools true readdir worlds (emit (LogHotReload true toolDir) initialState))).
  { destruct readdir as [files|r]; cbn [loadAllTools]; [|split; reflexivity].
    rewrite loadFiles_switch, loadFilesRejects_switch by assumption.
    assert (Hs : sameTables
              (loadFiles true worlds files (emit (LogHotReload false toolDir) initialState))
              (loadFiles true worlds files (emit (LogHotReload true toolDir) initialState)))
      by (apply sameTables_loadFiles; split; reflexivity).
    destruct (loadFilesRejects true worlds files); exact Hs. }
  assert (Hcalls : calls (trace (loadAllTools false readdir worlds
                                   (emit (LogHotReload false toolDir) initialState))) =
                   calls (trace (loadAllTools true readdir worlds
                                   (emit (LogHotReload true toolDir) initialState)))).
  { destruct readdir as [files|r]; cbn [loadAllTools]; [|now rewrite !calls_emit].
    rewrite loadFiles_switch, loadFilesRejects_switch by assumption.
    destruct (loadFilesRejects true worlds files); rewrite ?calls_emit;
      cbn [isCall]; rewrite ?app_nil_r; apply calls_loadFiles_eq; now rewrite !calls_emit. }
  destruct Hsame as [Ht Hr].
  destruct watched as [[]|r]; cbn [process state pendingReloads watching listChanged uncaught];
    (split; [exact Ht|]); (split; [exact Hr|]);
    (split; [rewrite ?calls_emit; cbn [isCall]; rewrite ?app_nil_r; exact Hcalls|]);
    auto 10.
Qed.

End Facts.

(** ** Unregistering goes by name *)

(** C9. Unregistering a file deletes from the server's table exactly
    the names tracked for that file, whoever registered the entry that
    is there now, and leaves every other name as it was. So when two
    files derive the same name ([a.ts] exporting [b_c] and [a_b.ts]
    exporting [c] both give [a_b_c]), unregistering the first deletes
    the entry the second registered, which stays tracked for the
    second. *)
Theorem unregister_goes_by_name :
  (forall (Fn : Type) (P : Platform Fn) (file : string) (st : @State Fn) (name : string),
      _registeredTools (unregisterFileTools file st) !! name =
      if decide (name ∈ ownedBy (stripExtension file) st) then None
      else _registeredTools st !! name) /\
  (let st := loadFiles true (fun _ => Scenario.diskWorld 1000 Scenario.disk2)
               ["a.ts"; "a_b.ts"] initialState in
   toolName "a" "b_c" = "a_b_c" /\ toolName "a_b" "c" = "a_b_c" /\
   "a_b_c" ∈ ownedBy "a" st /\
   "a_b_c" ∈ ownedBy "a_b" st /\
   _registeredTools st !! "a_b_c" = Some (entryOf Scenario.addTool) /\
   _registeredTools (unregisterFileTools "a.ts" st) !! "a_b_c" = None /\
   "a_b_c" ∈ ownedBy "a_b" (unregisterFileTools "a.ts" st)).
Proof.
  split.
  - intros Fn P file st name. apply unregisterFileTools_tools.
  - cbv zeta. repeat split; try reflexivity.
    all: apply bool_decide_unpack; vm_compute; exact I.
Qed.

(** ** The scenario directory *)

Lemma stripQuery_app_query (path q : string) :
  Scenario.stripQuery (path +:+ "?t=" +:+ q) = Scenario.stripQuery path.
Proof.
  induction path as [|c path IH]; [reflexivity|].
  change (String.append (String c path) ("?t=" +:+ q))
    with (String c (path +:+ "?t=" +:+ q)).
  cbn [Scenario.stripQuery]. now rewrite IH.
Qed.

Lemma diskWorld_queryInsensitive (now : Z)
    (disk : gmap string (settled (gmap string (value Scenario.toolFn)))) :
  queryInsensitive (Scenario.diskWorld now disk).
Proof.
  intros path q.
  cbn [import_ Scenario.diskWorld pathToFileURL Scenario.platform Scenario.platformWith].
  unfold Scenario.urlToPath.
  change (Scenario.dropChars 7 (("file://" +:+ path) +:+ "?t=" +:+ q))
    with (path +:+ "?t=" +:+ q).
  change (Scenario.dropChars 7 ("file://" +:+ path)) with path.
  now rewrite stripQuery_app_query.
Qed.

Ltac by_compute := apply bool_decide_unpack; vm_compute; exact I.

(** The initial scan registers [math_add] and [math_multiply]; after the
    edit, the reload leaves [math_add] and [math_subtract]. *)
Example math_scenario :
  let st := Scenario.scanned in
  let st' := loadToolFile true Scenario.world1_edited "math.ts" st in
  ownedBy "math" st = {[ "math_add"; "math_multiply" ]} /\
  ownedBy "math" st' = {[ "math_add"; "math_subtract" ]} /\
  dom (_registeredTools st') = {[ "greet"; "math_add"; "math_subtract" ]} /\
  _registeredTools st' !! "math_multiply" = None.
Proof. cbv zeta. repeat split; try reflexivity; by_compute. Qed.

(** Five events for one file within the window: one reload, one
    notification. *)
Example five_events_one_reload :
  let worlds := fun _ : string => Scenario.world1_edited in
  let p := run worlds (Fulfilled tt) Scenario.fiveEvents
             {| state := Scenario.scanned; reloadTimeout := None; pendingReloads := [] |} in
  reloadTimeout p = Some 5140 /\
  pendingReloads p = ["math.ts"] /\
  calls (trace (state (expire worlds (Fulfilled tt) 5140 p))) =
    calls (trace Scenario.scanned) ++
    [CallLoadToolFile "math.ts"; CallSendToolListChanged].
Proof. cbv zeta. repeat split; vm_compute; reflexivity. Qed.

(** A result that is not a string is rendered by [JSON.stringify]; a
    string passes through. *)
Example add_tool_invoked :
  invokeCallback (callback (entryOf Scenario.addTool))
    (VObject [("a", VNumber 2); ("b", VNumber 3)]) VUndefined =
  Fulfilled {| content := [ {| type_ := "text"; text := VString "5" |} ] |} /\
  invokeCallback (callback (entryOf Scenario.greetTool)) VUndefined VUndefined =
  Fulfilled {| content := [ {| type_ := "text"; text := VString "hello" |} ] |}.
Proof. split; reflexivity. Qed.

(** ** The theorems at work on the scenario *)


(** A tool that always fails, behind its registered callback. *)
Lemma handler_rejects_with_execute_failure_witness :
  execute Scenario.boomTool (passedArgs Scenario.boomTool VUndefined) VUndefined
    = Rejected Scenario.boom /\
  invokeCallback (callback (entryOf Scenario.boomTool)) VUndefined VUndefined
    = Rejected Scenario.boom.
Proof.
  split; [reflexivity|].
  apply (handler_rejects_with_execute_failure Scenario.boomTool VUndefined VUndefined
           Scenario.boom).
  reflexivity.
Defined.

(** The claim that the adapter turns a failure of [execute] into a
    failed response does not hold: registered and invoked, the failing
    tool makes both handlers reject, and no envelope is returned. *)
Lemma adapter_lets_failure_escape :
  isToolDefinition Scenario.boomTool = true /\
  _registeredTools (registerTool "boom" Scenario.boomTool "boom" initialState) !! "boom"
    = Some (entryOf Scenario.boomTool) /\
  invokeCallback (callback (entryOf Scenario.boomTool)) VUndefined VUndefined
    = Rejected Scenario.boom /\
  handlerWithArgs Scenario.boomTool (VObject []) VUndefined = Rejected Scenario.boom /\
  ~ exists envelope,
      invokeCallback (callback (entryOf Scenario.boomTool)) VUndefined VUndefined
        = Fulfilled envelope.
Proof.
  split; [reflexivity|]. split; [reflexivity|]. split; [reflexivity|].
  split; [reflexivity|]. intros [envelope Henv]. discriminate Henv.
Qed.

(** A batch in which [math.ts], loaded before, fails between other
    files: its tools are gone, the failure is one log line, and the
    files around it are loaded. *)
Example load_failure_contained_scenario :
  let worlds := fun _ : string => Scenario2.world1_broken in
  let after := loadFiles true worlds ["greet.ts"; "math.ts"; "nodesc.ts"] Scenario.scanned in
  loadModule true Scenario2.world1_broken "math.ts" = Rejected Scenario.syntaxError /\
  ownedBy "math" Scenario.scanned = {[ "math_add"; "math_multiply" ]} /\
  registeredTools after !! "math" = None /\
  dom (_registeredTools after) = {[ "greet" ]} /\
  failures (trace after) =
    failures (trace Scenario.scanned) ++ [LogFailedToLoad "math.ts" (inl "Unexpected token")] /\
  calls (trace after) =
    calls (trace Scenario.scanned) ++
    [CallLoadToolFile "greet.ts"; CallLoadToolFile "math.ts"; CallLoadToolFile "nodesc.ts"].
Proof. cbv zeta. repeat split; try reflexivity; by_compute. Qed.

(** The named exports of [math.ts]. *)
Lemma loadToolFile_tool_names_witness :
  let w := Scenario.world1 in
  isToolFile "math.ts" = true /\
  loadModule true w "math.ts" = Fulfilled Scenario.math_v1 /\
  let b := stripExtension "math.ts" in
  let st' := loadToolFile true w "math.ts" initialState in
  ("math.ts" = b +:+ ".ts" \/ "math.ts" = b +:+ ".js") /\
  (forall d, Scenario.math_v1 !! "default" = Some d -> isToolDefinition d = true ->
             _registeredTools st' !! b = Some (entryOf d) /\ b ∈ ownedBy b st') /\
  (forall e v, e <> "default" -> Scenario.math_v1 !! e = Some v ->
               isToolDefinition v = true ->
               _registeredTools st' !! (b +:+ "_" +:+ e) = Some (entryOf v) /\
               (b +:+ "_" +:+ e) ∈ ownedBy b st').
Proof.
  intros w. split; [reflexivity|]. split; [reflexivity|].
  apply (loadToolFile_tool_names true w "math.ts" initialState Scenario.math_v1);
    reflexivity.
Defined.

(** The default export of [nodesc.ts] has no [description]. *)
Lemma only_tool_definitions_registered_witness :
  let w := Scenario.world1 in
  let v := VObject [("execute", VFunction Scenario.FnGreet)] in
  isToolFile "nodesc.ts" = true /\
  loadModule true w "nodesc.ts" = Fulfilled Scenario.nodesc /\
  Scenario.nodesc !! "default" = Some v /\
  let b := stripExtension "nodesc.ts" in
  let st' := loadToolFile true w "nodesc.ts" Scenario.scanned in
  (isToolDefinition v = true <->
   exists props s f, v = VObject props /\ getProp "description" v = VString s /\
                     getProp "execute" v = VFunction f) /\
  (isToolDefinition v = true <->
   toolName b "default" ∈ ownedBy b st' /\
   _registeredTools st' !! toolName b "default" = Some (entryOf v)) /\
  (isToolDefinition v = false ->
   (toolName b "default" ∉ ownedBy b st') /\
   _registeredTools st' !! toolName b "default" =
   _registeredTools (unregisterFileTools "nodesc.ts" Scenario.scanned)
     !! toolName b "default") /\
  failures (trace st') = failures (trace Scenario.scanned).
Proof.
  intros w v. split; [reflexivity|]. split; [reflexivity|]. split; [reflexivity|].
  apply (only_tool_definitions_registered true w "nodesc.ts" Scenario.scanned
           Scenario.nodesc "default" v); reflexivity.
Defined.

(** Two loads one millisecond apart. *)
Lemma importUrl_distinct_when_hot_witness :
  1000 <> 1001 /\
  importUrl true "file:///tools/math.ts" 1000 <> importUrl true "file:///tools/math.ts" 1001 /\
  importUrl true "file:///tools/math.ts" 1000 = "file:///tools/math.ts" +:+ "?t=" +:+ pretty 1000 /\
  importUrl false "file:///tools/math.ts" 1000 = "file:///tools/math.ts".
Proof.
  split; [lia|].
  apply (importUrl_distinct_when_hot "file:///tools/math.ts" 1000 1001). lia.
Defined.

(** The claim that every two load requests for a file use distinct
    URLs does not hold: with hot reload off no token is appended, so two
    loads a second apart request the same URL; with hot reload on, so do
    two loads that read the same clock value. *)
Lemma importUrl_not_always_distinct :
  importUrl false "file:///tools/math.ts" 1000 = "file:///tools/math.ts" /\
  importUrl false "file:///tools/math.ts" 1000 = importUrl false "file:///tools/math.ts" 2000 /\
  loadModule false (Scenario.diskWorld 1000 Scenario.disk1) "math.ts" =
    loadModule false (Scenario.diskWorld 2000 Scenario.disk1) "math.ts" /\
  importUrl true "file:///tools/math.ts" 1000 = "file:///tools/math.ts?t=1000" /\
  importUrl true "file:///tools/math.ts" 1000 = importUrl true "file:///tools/math.ts" 1000.
Proof. repeat split; reflexivity. Qed.

(** The scenario directory, scanned with hot reload off and on. *)
Example hot_reload_switch_scenario :
  let worlds := fun _ : string => Scenario.world1 in
  let readdir := Fulfilled ["README.md"; "broken.ts"; "greet.ts"; "math.ts"; "nodesc.ts"] in
  let off := startup false readdir (Fulfilled tt) worlds in
  let on := startup true readdir (Fulfilled tt) worlds in
  _registeredTools (state (process off)) = _registeredTools (state (process on)) /\
  dom (_registeredTools (state (process on))) = {[ "greet"; "math_add"; "math_multiply" ]} /\
  watching off = false /\ watching on = true.
Proof.
  intros worlds readdir off on.
  destruct (hot_reload_switch_only_stops_watching readdir (Fulfilled tt) (Fulfilled tt) worlds)
    as (Ht & _); [intros file; apply diskWorld_queryInsensitive|].
  split; [exact Ht|]. repeat split; reflexivity.
Qed.

(** A tool declared with [args: {}]. *)
Lemma empty_args_registered_as_absent_witness :
  let tool := Scenario.greetToolEmptyArgs in
  getProp "args" tool = VObject [] /\
  let st1 := registerTool "greet" tool "greet" initialState in
  let st2 := registerTool "greet" (withoutArgs tool) "greet" initialState in
  registeredTools st1 = registeredTools st2 /\
  trace st1 = trace st2 /\
  (forall other, other <> "greet" ->
     _registeredTools st1 !! other = _registeredTools st2 !! other) /\
  exists h1 h2,
    _registeredTools st1 !! "greet" =
      Some {| description := getProp "description" tool;
              inputSchema := None; callback := NoArgs h1 |} /\
    _registeredTools st2 !! "greet" =
      Some {| description := getProp "description" tool;
              inputSchema := None; callback := NoArgs h2 |} /\
    forall extra,
      h1 extra = h2 extra /\
      h1 extra = (result ← execute tool (VObject []) extra; mret (response result)).
Proof.
  intros tool. split; [reflexivity|].
  apply (empty_args_registered_as_absent "greet" tool "greet" initialState).
  reflexivity.
Defined.

(** * Further facts *)

Section MoreFacts.

Context `{Platform Fn}.

#[local] Abbreviation value := (value Fn).
#[local] Abbreviation Module := (gmap string value).
#[local] Abbreviation RegisteredTool := (@RegisteredTool Fn).
#[local] Abbreviation State := (@State Fn).
#[local] Abbreviation World := (@World Fn).
#[local] Abbreviation Process := (@Process Fn).
#[local] Abbreviation Async := (@Async Fn).
#[local] Abbreviation Step := (@Step Fn).

(** ** What a reload does to the bookkeeping *)

Lemma tracked_registerTool (name : string) (tool : value) (baseName b : string) (st : State) :
  registeredTools (registerTool name tool baseName st) !! b =
  if decide (baseName = b) then Some (ownedBy baseName st ∪ {[name]})
  else registeredTools st !! b.
Proof.
  unfold registerTool, ownedBy; cbn. destruct (decide (baseName = b)) as [->|Hne].
  - now rewrite lookup_insert_eq.
  - now rewrite lookup_insert_ne.
Qed.

Lemma tracked_registerExports_other (baseName b : string) (module : Module) (st : State) :
  baseName <> b ->
  registeredTools (registerExports baseName module st) !! b = registeredTools st !! b.
Proof.
  intros Hne. unfold registerExports.
  transitivity (registeredTools (registerDefault baseName module st) !! b).
  - generalize (registerDefault baseName module st). intros st0.
    generalize (map_to_list module). intros l. revert st0.
    induction l as [|[k v] l IH]; intros st0; cbn [foldl]; [reflexivity|].
    rewrite IH. destruct (registerNamed_cases baseName k v st0) as [(_ & _ & ->)|[_ ->]];
      [|reflexivity].
    now rewrite tracked_registerTool, decide_False.
  - destruct (registerDefault_cases baseName module st) as [(d & _ & _ & ->)|[_ ->]];
      [|reflexivity].
    now rewrite tracked_registerTool, decide_False.
Qed.

Lemma tracked_foldl_None (baseName : string) (l : list (string * value)) (st : State) :
  registeredTools (foldl (registerNamed baseName) st l) !! baseName = None <->
  registeredTools st !! baseName = None /\
  forall key v, (key, v) ∈ l -> key <> "default" -> isToolDefinition v = false.
Proof.
  revert st. induction l as [|[k v] l IH]; intros st; cbn [foldl].
  - split; [intros Hn; split; [assumption|] | now intros [? _]].
    intros key v Hin. now apply elem_of_nil in Hin.
  - rewrite IH. destruct (registerNamed_cases baseName k v st) as [(Hk & Hv & ->)|[Hno ->]].
    + rewrite tracked_registerTool, decide_True by reflexivity. split.
      * intros [Hs _]. discriminate Hs.
      * intros [_ Hall]. rewrite (Hall k v) in Hv; [discriminate | left | assumption].
    + split.
      * intros [Hn Hall]. split; [assumption|]. intros key v' Hin Hkey.
        apply elem_of_cons in Hin as [[= -> ->]|Hin]; [|now apply (Hall key v')].
        destruct Hno as [->|Hv]; [contradiction | assumption].
      * intros [Hn Hall]. split; [assumption|]. intros key v' Hin.
        apply Hall. now right.
Qed.

Lemma tracked_registerExports_None (baseName : string) (module : Module) (st : State) :
  registeredTools (registerExports baseName module st) !! baseName = None <->
  registeredTools st !! baseName = None /\
  forall key v, module !! key = Some v -> isToolDefinition v = false.
Proof.
  unfold registerExports. rewrite tracked_foldl_None. split.
  - intros [Hd Hnamed].
    destruct (registerDefault_cases baseName module st) as [(d & _ & _ & Heq)|[Hno Heq]];
      rewrite Heq in Hd.
    + rewrite tracked_registerTool, decide_True in Hd by reflexivity. discriminate.
    + split; [assumption|]. intros key v Hm.
      destruct (String.eqb_spec key "default") as [->|Hk]; [now apply Hno|].
      apply (Hnamed key v); [now apply elem_of_map_to_list | assumption].
  - intros [Hn Hall]. split.
    + destruct (registerDefault_cases baseName module st) as [(d & Ed & Hd & _)|[_ ->]];
        [|assumption].
      rewrite (Hall "default" d Ed) in Hd. discriminate.
    + intros key v Hin _. apply (Hall key v). now apply elem_of_map_to_list.
Qed.

Lemma tracked_loadToolFile_other (hotReload : bool) (w : World) (file b : string)
    (st : State) :
  b <> stripExtension file ->
  registeredTools (loadToolFile hotReload w file st) !! b = registeredTools st !! b.
Proof.
  intros Hne. destruct (isToolFile file) eqn:Hf.
  - rewrite loadToolFile_toolFile by assumption.
    destruct (loadModule hotReload w file).
    + rewrite tracked_registerExports_other by congruence.
      rewrite unregisterFileTools_tracked. now rewrite lookup_delete_ne by congruence.
    + rewrite (proj2 (loadFailed_tables _ _ _)), unregisterFileTools_tracked.
      now rewrite lookup_delete_ne by congruence.
  - now rewrite loadToolFile_otherFile.
Qed.

Lemma tracked_loadToolFile_None (hotReload : bool) (w : World) (file : string) (st : State) :
  isToolFile file = true ->
  registeredTools (loadToolFile hotReload w file st) !! stripExtension file = None <->
  forall key v, exportsOf (loadModule hotReload w file) !! key = Some v ->
                isToolDefinition v = false.
Proof.
  intros Hf. rewrite loadToolFile_toolFile by assumption.
  destruct (loadModule hotReload w file) as [module|e]; cbn [exportsOf].
  - rewrite tracked_registerExports_None, unregisterFileTools_tracked, lookup_delete_eq.
    tauto.
  - rewrite (proj2 (loadFailed_tables _ _ _)), unregisterFileTools_tracked, lookup_delete_eq.
    split; [|reflexivity]. intros _ key v Hm. now rewrite lookup_empty in Hm.
Qed.

(** The server's table after a reload, at a name the file owns
    afterwards: the entry does not depend on the state before. *)
Lemma tools_loadToolFile_owned (hotReload : bool) (w : World) (file : string)
    (st st0 : State) (name : string) :
  isToolFile file = true ->
  name ∈ ownedBy (stripExtension file) (loadToolFile hotReload w file st) ->
  _registeredTools (loadToolFile hotReload w file st) !! name =
  _registeredTools (loadToolFile hotReload w file st0) !! name /\
  is_Some (_registeredTools (loadToolFile hotReload w file st) !! name).
Proof.
  intros Hf Hin. apply ownedBy_loadToolFile in Hin as (key & v & Hm & Hv & ->);
    [|assumption].
  destruct (loadModule hotReload w file) as [module|e] eqn:Hload; cbn [exportsOf] in Hm.
  - destruct (loadToolFile_tool_names_aux hotReload w file st module key v) as [-> _];
      try assumption.
    destruct (loadToolFile_tool_names_aux hotReload w file st0 module key v) as [-> _];
      try assumption.
    split; [reflexivity | eauto].
  - now rewrite lookup_empty in Hm.
Qed.

Lemma ownedBy_loadToolFile_any (hotReload : bool) (w : World) (file : string)
    (st st0 : State) :
  isToolFile file = true ->
  ownedBy (stripExtension file) (loadToolFile hotReload w file st) =
  ownedBy (stripExtension file) (loadToolFile hotReload w file st0).
Proof.
  intros Hf. apply set_eq. intros name. now rewrite !ownedBy_loadToolFile.
Qed.

Lemma ownedBy_loadToolFile_other (hotReload : bool) (w : World) (file b : string)
    (st : State) :
  b <> stripExtension file ->
  ownedBy b (loadToolFile hotReload w file st) = ownedBy b st.
Proof. intros Hne. unfold ownedBy. now rewrite tracked_loadToolFile_other. Qed.

Lemma tracked_loadToolFile_any (hotReload : bool) (w : World) (file : string)
    (st st0 : State) :
  isToolFile file = true ->
  registeredTools (loadToolFile hotReload w file st) !! stripExtension file =
  registeredTools (loadToolFile hotReload w file st0) !! stripExtension file.
Proof.
  intros Hf.
  pose proof (tracked_loadToolFile_None hotReload w file st Hf) as H1.
  pose proof (tracked_loadToolFile_None hotReload w file st0 Hf) as H2.
  pose proof (ownedBy_loadToolFile_any hotReload w file st st0 Hf) as Hown.
  unfold ownedBy in Hown.
  destruct (registeredTools (loadToolFile hotReload w file st) !! stripExtension file)
    as [X1|] eqn:E1,
    (registeredTools (loadToolFile hotReload w file st0) !! stripExtension file)
    as [X2|] eqn:E2; cbn in Hown.
  - now subst.
  - pose proof (proj2 H1 (proj1 H2 eq_refl)) as Hno. discriminate.
  - pose proof (proj2 H2 (proj1 H1 eq_refl)) as Hno. discriminate.
  - reflexivity.
Qed.

(** ** Reloading twice, reloading apart *)

(** X1. Reloading a file whose content has not changed leaves the
    server's table and the bookkeeping as the first reload left them. *)
Theorem reload_idempotent (hotReload : bool) (w : World) (file : string) (st : State) :
  sameTables (loadToolFile hotReload w file (loadToolFile hotReload w file st))
             (loadToolFile hotReload w file st).
Proof.
  destruct (isToolFile file) eqn:Hf;
    [|rewrite !loadToolFile_otherFile by assumption; split; reflexivity].
  set (st1 := loadToolFile hotReload w file st).
  pose proof (ownedBy_loadToolFile_any hotReload w file st1 st Hf) as Hown.
  fold st1 in Hown. split.
  - apply map_eq. intros name.
    destruct (decide (name ∈ ownedBy (stripExtension file) st1)) as [Hin|Hnot].
    + apply tools_loadToolFile_owned; [assumption|]. now rewrite Hown.
    + rewrite tools_loadToolFile_other by (try rewrite Hown; assumption).
      now rewrite decide_False.
  - apply map_eq. intros b. destruct (decide (b = stripExtension file)) as [->|Hne].
    + now apply tracked_loadToolFile_any.
    + now rewrite tracked_loadToolFile_other.
Qed.

(** X2. A reload changes nothing outside the file it reloads: what is
    tracked for every other base name stays, and so does every table
    entry under a name the file neither owned before nor owns after. *)
Theorem reload_frame (hotReload : bool) (w : World) (file : string) (st : State) :
  (forall b, b <> stripExtension file ->
     registeredTools (loadToolFile hotReload w file st) !! b = registeredTools st !! b) /\
  (forall name, name ∉ touchedNames hotReload w file st ->
     _registeredTools (loadToolFile hotReload w file st) !! name =
     _registeredTools st !! name).
Proof.
  split.
  - intros b Hne. now apply tracked_loadToolFile_other.
  - intros name Hnot. unfold touchedNames in Hnot.
    apply not_elem_of_union in Hnot as [Hbefore Hafter].
    destruct (isToolFile file) eqn:Hf.
    + rewrite tools_loadToolFile_other by assumption. now rewrite decide_False.
    + now rewrite loadToolFile_otherFile.
Qed.

(** X3. Reloads of two files with different base names commute, as far
    as the table and the bookkeeping go, when the names the two reloads
    are concerned with are disjoint. *)
Theorem reloads_commute (hotReload : bool) (wf wg : World) (f g : string) (st : State) :
  isToolFile f = true ->
  isToolFile g = true ->
  stripExtension f <> stripExtension g ->
  touchedNames hotReload wf f st ## touchedNames hotReload wg g st ->
  sameTables (loadToolFile hotReload wg g (loadToolFile hotReload wf f st))
             (loadToolFile hotReload wf f (loadToolFile hotReload wg g st)).
Proof.
  intros Hf Hg Hne Hdisj.
  set (sf := loadToolFile hotReload wf f st). set (sg := loadToolFile hotReload wg g st).
  assert (Hgf : ownedBy (stripExtension g) sf = ownedBy (stripExtension g) st)
    by (apply ownedBy_loadToolFile_other; congruence).
  assert (Hfg : ownedBy (stripExtension f) sg = ownedBy (stripExtension f) st)
    by (apply ownedBy_loadToolFile_other; congruence).
  pose proof (ownedBy_loadToolFile_any hotReload wg g sf st Hg) as Hog. fold sg in Hog.
  pose proof (ownedBy_loadToolFile_any hotReload wf f sg st Hf) as Hof. fold sf in Hof.
  assert (Hd : forall name,
            name ∈ ownedBy (stripExtension f) st \/ name ∈ ownedBy (stripExtension f) sf ->
            name ∈ ownedBy (stripExtension g) st \/ name ∈ ownedBy (stripExtension g) sg ->
            False).
  { intros name H1 H2. apply (proj1 (elem_of_disjoint _ _) Hdisj name);
      unfold touchedNames; apply elem_of_union; assumption. }
  split.
  - apply map_eq. intros name.
    destruct (decide (name ∈ ownedBy (stripExtension g) sg)) as [Hing|Hnotg].
    + assert (Hnf : name ∉ ownedBy (stripExtension f) st) by (intros ?; eapply Hd; eauto).
      assert (Hnf' : name ∉ ownedBy (stripExtension f) sf) by (intros ?; eapply Hd; eauto).
      rewrite (proj1 (tools_loadToolFile_owned hotReload wg g sf st name Hg
                        ltac:(now rewrite Hog))).
      fold sg. rewrite tools_loadToolFile_other by (try rewrite Hof; assumption).
      now rewrite Hfg, decide_False.
    + rewrite tools_loadToolFile_other by (try rewrite Hog; assumption). rewrite Hgf.
      destruct (decide (name ∈ ownedBy (stripExtension f) sf)) as [Hinf|Hnotf].
      * assert (Hng : name ∉ ownedBy (stripExtension g) st) by (intros ?; eapply Hd; eauto).
        rewrite decide_False by assumption.
        rewrite (proj1 (tools_loadToolFile_owned hotReload wf f sg st name Hf
                          ltac:(now rewrite Hof))).
        reflexivity.
      * rewrite (tools_loadToolFile_other hotReload wf f sg)
          by (try rewrite Hof; assumption).
        rewrite Hfg. subst sf sg.
        rewrite !tools_loadToolFile_other by assumption.
        destruct (decide (name ∈ ownedBy (stripExtension g) st)),
                 (decide (name ∈ ownedBy (stripExtension f) st)); reflexivity.
  - apply map_eq. intros b.
    destruct (decide (b = stripExtension g)) as [->|Hbg].
    + rewrite (tracked_loadToolFile_any hotReload wg g sf st Hg).
      now rewrite (tracked_loadToolFile_other hotReload wf f _ sg) by congruence.
    + rewrite (tracked_loadToolFile_other hotReload wg g b sf) by assumption.
      destruct (decide (b = stripExtension f)) as [->|Hbf].
      * now rewrite (tracked_loadToolFile_any hotReload wf f sg st Hf).
      * subst sf sg. now rewrite !tracked_loadToolFile_other by assumption.
Qed.

(** X4. Unregistering a file a second time changes nothing, not even
    the log. *)
Theorem unregister_idempotent (file : string) (st : State) :
  unregisterFileTools file (unregisterFileTools file st) = unregisterFileTools file st.
Proof.
  unfold unregisterFileTools at 2 3.
  destruct (registeredTools st !! stripExtension file) as [toolNames|] eqn:E.
  - unfold unregisterFileTools. cbn [registeredTools]. now rewrite lookup_delete_eq.
  - unfold unregisterFileTools. now rewrite E.
Qed.

(** X5. The files of a listing that are no tool files play no part:
    loading the whole listing leaves the same table and bookkeeping as
    loading its [.ts] and [.js] files alone. *)
Theorem loadFiles_skips_other_files (hotReload : bool) (worlds : string -> World)
    (files : list string) (st : State) :
  sameTables (loadFiles hotReload worlds files st)
             (loadFiles hotReload worlds (filter (fun f => isToolFile f = true) files) st).
Proof.
  revert st. induction files as [|file files IH]; intros st; [split; reflexivity|].
  rewrite filter_cons. destruct (isToolFile file) eqn:Hf.
  - rewrite decide_True by reflexivity. rewrite !loadFiles_cons.
    destruct (loadToolFileRejects hotReload (worlds file) file);
      [split; reflexivity | apply IH].
  - rewrite decide_False by discriminate.
    rewrite loadFiles_cons, loadToolFileRejects_otherFile, loadToolFile_otherFile
      by assumption.
    destruct (IH (emit (CallLoadToolFile file) st)) as [Ht Hr].
    destruct (sameTables_loadFiles hotReload worlds
                (filter (fun f => isToolFile f = true) files)
                (emit (CallLoadToolFile file) st) st) as [Ht' Hr']; [split; reflexivity|].
    split; congruence.
Qed.

(** X6. A file that was loaded and then deleted is retracted: nothing
    stays tracked for it, none of the names it had registered is left in
    the server's table, and the reload logs the deletion and no other
    failure. *)
Theorem deletion_retracts (hotReload : bool) (w1 w2 : World) (file : string)
    (module : Module) (e : Error) (st : State) :
  isToolFile file = true ->
  loadModule hotReload w1 file = Fulfilled module ->
  stat w2 (join toolDir file) = Rejected e ->
  code e = Some "ENOENT" ->
  let st1 := loadToolFile hotReload w1 file st in
  let st2 := loadToolFile hotReload w2 file st1 in
  registeredTools st2 !! stripExtension file = None /\
  (forall key v, module !! key = Some v -> isToolDefinition v = true ->
                 _registeredTools st2 !! toolName (stripExtension file) key = None) /\
  failures (trace st2) = failures (trace st1) ++ [LogFileDeleted file].
Proof.
  intros Hf Hload Hstat Hcode st1 st2.
  assert (Hload2 : loadModule hotReload w2 file = Rejected e).
  { unfold loadModule. now rewrite Hstat. }
  assert (Hst2 : st2 = loadFailed file e
                         (unregisterFileTools file (emit (CallLoadToolFile file) st1))).
  { subst st2. now rewrite loadToolFile_toolFile, Hload2. }
  destruct (loadFailed_tables file e
              (unregisterFileTools file (emit (CallLoadToolFile file) st1))) as [Ht Hr].
  rewrite <- Hst2 in Ht, Hr. split; [|split].
  - now rewrite Hr, unregisterFileTools_tracked, lookup_delete_eq.
  - intros key v Hm Hv. rewrite Ht, unregisterFileTools_tools.
    rewrite decide_True; [reflexivity|].
    change (ownedBy (stripExtension file) (emit (CallLoadToolFile file) st1))
      with (ownedBy (stripExtension file) st1).
    subst st1. apply ownedBy_loadToolFile; [assumption|]. rewrite Hload. cbn. eauto.
  - rewrite Hst2. unfold loadFailed. rewrite bool_decide_true by assumption.
    unfold failures. rewrite project_emit. cbn [isFailureLog].
    rewrite project_unregisterFileTools by reflexivity. rewrite project_emit.
    cbn [isFailureLog]. now rewrite app_nil_r.
Qed.

(** ** The timer callback, await by await *)

Lemma resume_last (k : Batch -> State -> option (State * option Batch))
    (p : Process) (bs : list Batch) (b : Batch) :
  resume (length bs) k {| proc := p; batches := bs ++ [b] |} =
  match k b (state p) with
  | Some (st, Some b') => {| proc := withState st p; batches := bs ++ [b'] |}
  | Some (st, None) => {| proc := withState st p; batches := bs |}
  | None => {| proc := p; batches := bs ++ [b] |}
  end.
Proof.
  unfold resume. cbn [batches proc].
  rewrite (list_lookup_middle bs [] b (length bs) eq_refl).
  destruct (k b (state p)) as [[st [b'|]]|]; [| |reflexivity].
  - rewrite insert_app_r_alt by lia. now rewrite Nat.sub_diag.
  - rewrite (delete_middle bs [] b). now rewrite app_nil_r.
Qed.

Lemma resume_none (i : nat) (k : Batch -> State -> option (State * option Batch))
    (a : Async) :
  batches a !! i = None -> resume i k a = a.
Proof. unfold resume. now intros ->. Qed.

(** Once batch [i] is over, what was to settle for it settles for
    nobody. *)
Lemma settlements_over (worlds : string -> World) (sent : settled unit)
    (files : list string) (a : Async) :
  asyncRun (settlements (length (batches a)) worlds sent files) a = a.
Proof.
  assert (Hnone : batches a !! length (batches a) = None)
    by (apply lookup_ge_None; lia).
  unfold asyncRun. induction files as [|file files IH]; cbn [settlements].
  - cbn. now apply resume_none.
  - rewrite foldl_app.
    assert (Hfile : forall steps,
              steps = (if negb (endsWith file ".ts") && negb (endsWith file ".js") then []
                       else StatSettles (length (batches a))
                              (stat (worlds file) (join toolDir file)) (Date_now (worlds file)) ::
                            match stat (worlds file) (join toolDir file) with
                            | Fulfilled _ =>
                                [ImportSettles (length (batches a))
                                   (import_ (worlds file)
                                      (importUrl true (pathToFileURL (join toolDir file))
                                         (Date_now (worlds file))))]
                            | Rejected _ => []
                            end) ->
              foldl asyncStep a steps = a).
    { intros steps ->. destruct (_ && _); [reflexivity|].
      destruct (stat (worlds file) (join toolDir file)); cbn [foldl asyncStep];
        now rewrite !(resume_none _ _ a Hnone). }
    rewrite (Hfile _ eq_refl). cbn [foldl asyncStep].
    rewrite resume_none by assumption. exact IH.
Qed.

(** A reload that nothing interrupts: from the turn of the loop that
    starts the reload of a tool file, [stat] and [import] settle with
    nothing else in between, and the batch is left waiting for
    [loadToolFile] to settle, in the state [loadToolFile] gives. *)
Lemma loadToolFile_uninterrupted (w : World) (timeout : option Z)
    (pending : list string) (bs : list Batch) (file : string) (rest : list string)
    (st : State) :
  isToolFile file = true ->
  asyncRun
    (StatSettles (length bs) (stat w (join toolDir file)) (Date_now w) ::
     match stat w (join toolDir file) with
     | Fulfilled _ =>
         [ImportSettles (length bs)
            (import_ w (importUrl true (pathToFileURL (join toolDir file)) (Date_now w)))]
     | Rejected _ => []
     end)
    {| proc := {| state := (nextFile (file :: rest) st).1;
                  reloadTimeout := timeout; pendingReloads := pending |};
       batches := bs ++ [(nextFile (file :: rest) st).2] |} =
  {| proc := {| state := loadToolFile true w file st;
                reloadTimeout := timeout; pendingReloads := pending |};
     batches := bs ++ [{| awaiting := AwaitLoadToolFile (loadToolFileRejects true w file);
                          remaining := rest |}] |}.
Proof.
  intros Hf. rewrite loadToolFileRejects_toolFile, loadToolFile_toolFile by assumption.
  unfold isToolFile in Hf. cbn [nextFile].
  replace (negb (endsWith file ".ts") && negb (endsWith file ".js")) with false
    by (destruct (endsWith file ".ts"), (endsWith file ".js"); try discriminate; reflexivity).
  unfold loadModule.
  destruct (stat w (join toolDir file)) as [[]|r];
    cbn [mbind settled_bind fst snd asyncRun foldl asyncStep].
  - rewrite resume_last.
    cbn [statSettled awaiting remaining state withState reloadTimeout pendingReloads].
    rewrite resume_last.
    cbn [importSettled caught awaiting remaining state withState reloadTimeout
         pendingReloads].
    now destruct (import_ w _).
  - rewrite resume_last.
    now cbn [statSettled caught awaiting remaining state withState reloadTimeout
             pendingReloads].
Qed.

(** A batch that nothing interrupts: when what it waits for settles
    step after step, with nothing else in between, it leaves the state
    that the loop of [timer_callback] and the notification leave. *)
Lemma settlements_uninterrupted (worlds : string -> World) (sent : settled unit)
    (timeout : option Z) (pending : list string) (bs : list Batch)
    (files : list string) (st : State) :
  asyncRun (settlements (length bs) worlds sent files)
    {| proc := {| state := (nextFile files st).1;
                  reloadTimeout := timeout; pendingReloads := pending |};
       batches := bs ++ [(nextFile files st).2] |} =
  {| proc := {| state := match loadFilesRejects true worlds files with
                         | Some _ => loadFiles true worlds files st
                         | None => notifyListChanged sent (loadFiles true worlds files st)
                         end;
                reloadTimeout := timeout; pendingReloads := pending |};
     batches := bs |}.
Proof.
  revert st. induction files as [|file files IH]; intros st.
  - cbn [settlements nextFile fst snd asyncRun foldl asyncStep].
    rewrite resume_last. cbn [sendSettled awaiting state withState].
    unfold notifyListChanged. cbn [loadFiles loadFilesRejects].
    now destruct sent.
  - cbn [settlements]. rewrite loadFiles_cons. cbn [loadFilesRejects nextFile].
    unfold loadToolFileRejects, loadToolFile.
    destruct (negb (endsWith file ".ts") && negb (endsWith file ".js")) eqn:Hf.
    + cbn [app fst snd asyncRun foldl asyncStep]. rewrite resume_last.
      cbn [loadToolFileSettled awaiting remaining state withState reloadTimeout
           pendingReloads].
      destruct (nextFile files (emit (CallLoadToolFile file) st)) as [st2 b2] eqn:Enext.
      specialize (IH (emit (CallLoadToolFile file) st)). rewrite Enext in IH.
      exact IH.
    + unfold loadModule.
      destruct (stat (worlds file) (join toolDir file)) as [[]|r] eqn:Estat;
        cbn [mbind settled_bind app fst snd asyncRun foldl asyncStep].
      * rewrite resume_last.
        cbn [statSettled awaiting remaining state withState reloadTimeout pendingReloads].
        rewrite resume_last.
        cbn [importSettled caught awaiting remaining state withState reloadTimeout
             pendingReloads].
        destruct (import_ (worlds file) _) as [module|r];
          rewrite resume_last;
          cbn [loadToolFileSettled awaiting remaining state withState reloadTimeout
               pendingReloads].
        -- destruct (nextFile files _) as [st2 b2] eqn:Enext.
           specialize (IH (registerExports (stripExtension file) module
                             (unregisterFileTools file (emit (CallLoadToolFile file) st)))).
           rewrite Enext in IH. exact IH.
        -- destruct r as [| |e]; cbn [catchThrows].
           ++ exact (settlements_over worlds sent files
                       {| proc := _; batches := bs |}).
           ++ exact (settlements_over worlds sent files
                       {| proc := _; batches := bs |}).
           ++ destruct (nextFile files _) as [st2 b2] eqn:Enext.
              specialize (IH (loadFailed file e
                                (unregisterFileTools file (emit (CallLoadToolFile file) st)))).
              rewrite Enext in IH. exact IH.
      * rewrite resume_last.
        cbn [statSettled caught awaiting remaining state withState reloadTimeout
             pendingReloads].
        rewrite resume_last.
        cbn [loadToolFileSettled awaiting remaining state withState reloadTimeout
             pendingReloads].
        destruct r as [| |e]; cbn [catchThrows].
        -- exact (settlements_over worlds sent files
                    {| proc := _; batches := bs |}).
        -- exact (settlements_over worlds sent files
                    {| proc := _; batches := bs |}).
        -- destruct (nextFile files _) as [st2 b2] eqn:Enext.
           specialize (IH (loadFailed file e
                             (unregisterFileTools file (emit (CallLoadToolFile file) st)))).
           rewrite Enext in IH. exact IH.
Qed.

(** [timer_callback] is the timer callback that nothing interrupts:
    the timer fires and everything the batch waits for settles before
    anything else runs. *)
Lemma timer_callback_uninterrupted (worlds : string -> World) (sent : settled unit)
    (now deadline : Z) (p : Process) (bs : list Batch) :
  reloadTimeout p = Some deadline -> deadline <= now ->
  asyncRun (TimerFires now :: settlements (length bs) worlds sent (pendingReloads p))
    {| proc := p; batches := bs |} =
  {| proc := timer_callback worlds sent p; batches := bs |}.
Proof.
  intros Hd Hle. cbn [asyncRun foldl asyncStep]. unfold timerFires. cbn [proc batches].
  rewrite Hd. destruct (Z.leb_spec deadline now); [|lia].
  unfold timer_callback. destruct (pendingReloads p) as [|file files] eqn:Ep.
  - exact (settlements_over worlds sent [] {| proc := _; batches := bs |}).
  - rewrite bool_decide_true by (cbn; lia).
    destruct (nextFile (file :: files) (state p)) as [st1 b1] eqn:Enext.
    pose proof (settlements_uninterrupted worlds sent None [] bs (file :: files) (state p))
      as Hrun.
    rewrite Enext in Hrun. exact Hrun.
Qed.

(** The watch callback is one step, and a timer that is not due is
    none. *)
Lemma expire_uninterrupted (worlds : string -> World) (sent : settled unit)
    (now : Z) (p : Process) (bs : list Batch) :
  asyncRun (TimerFires now :: settlements (length bs) worlds sent (pendingReloads p))
    {| proc := p; batches := bs |} =
  {| proc := expire worlds sent now p; batches := bs |}.
Proof.
  unfold expire. destruct (reloadTimeout p) as [deadline|] eqn:Hd.
  - destruct (Z.leb_spec deadline now) as [Hle|Hlt].
    + now apply (timer_callback_uninterrupted _ _ _ deadline).
    + cbn [asyncRun foldl asyncStep]. unfold timerFires. cbn [proc]. rewrite Hd.
      destruct (Z.leb_spec deadline now); [lia|].
      exact (settlements_over worlds sent (pendingReloads p) {| proc := p; batches := bs |}).
  - cbn [asyncRun foldl asyncStep]. unfold timerFires. cbn [proc]. rewrite Hd.
    exact (settlements_over worlds sent (pendingReloads p) {| proc := p; batches := bs |}).
Qed.

(** ** Invariants of the registry *)

(** A property of the state that the initial state has, and that
    writing a log line, unregistering a file and registering a tool
    keep, holds after start-up and after any steps of the event loop:
    whatever the loads yield, and however the batches overlap. *)
Lemma async_invariant (P : State -> Prop) :
  (forall e st, P st -> P (emit e st)) ->
  (forall file st, P st -> P (unregisterFileTools file st)) ->
  (forall name tool baseName st, P st -> P (registerTool name tool baseName st)) ->
  P initialState ->
  forall (readdir : settled (list string)) (watched : settled unit)
         (worlds0 : string -> World) (steps : list Step),
    P (state (proc (asyncRun steps (idle (process (main readdir watched worlds0)))))).
Proof.
  intros Hemit Hunreg Hreg Hinit readdir watched worlds0 steps.
  assert (Hexports : forall b module st, P st -> P (registerExports b module st)).
  { intros b module st Hst. unfold registerExports.
    assert (Hd : P (registerDefault b module st)).
    { unfold registerDefault. destruct (_ && _); [now apply Hreg | exact Hst]. }
    revert Hd. generalize (registerDefault b module st).
    induction (map_to_list module) as [|[k v] l IH]; intros st0 Hst0; cbn [foldl];
      [exact Hst0|].
    apply IH. unfold registerNamed. destruct (_ && _); [now apply Hreg | exact Hst0]. }
  assert (Hfailed : forall file r st, P st -> P (loadFailed file r st)).
  { intros file [| |e] st Hst; cbn [loadFailed]; [exact Hst..|].
    destruct (bool_decide _); now apply Hemit. }
  assert (Hload : forall hot w file st, P st -> P (loadToolFile hot w file st)).
  { intros hot w file st Hst. unfold loadToolFile.
    destruct (_ && _); [now apply Hemit|].
    destruct (loadModule hot w file); [apply Hexports | apply Hfailed];
      now apply Hunreg, Hemit. }
  assert (Hfiles : forall hot ws files st, P st -> P (loadFiles hot ws files st)).
  { intros hot ws files. induction files as [|file files IH]; intros st Hst; [exact Hst|].
    rewrite loadFiles_cons. destruct (loadToolFileRejects _ _ _); [|apply IH];
      now apply Hload. }
  assert (Hnext : forall files st, P st -> P (nextFile files st).1).
  { intros [|file files] st Hst; cbn [nextFile]; [cbn; now do 2 apply Hemit|].
    destruct (_ && _); cbn [fst]; [|apply Hunreg]; now apply Hemit. }
  assert (Hresume : forall i k a,
            (forall b st st' ob, k b st = Some (st', ob) -> P st -> P st') ->
            P (state (proc a)) -> P (state (proc (resume i k a)))).
  { intros i k a Hk Ha. unfold resume. destruct (batches a !! i) as [b|]; [|exact Ha].
    destruct (k b (state (proc a))) as [[st' [b'|]]|] eqn:Ek; [| |exact Ha];
      cbn [proc state withState]; exact (Hk _ _ _ _ Ek Ha). }
  assert (Hmain : P (state (process (main readdir watched worlds0)))).
  { unfold main, startup.
    assert (Hscan : forall hot, P (loadAllTools hot readdir worlds0
                                     (emit (LogHotReload hot toolDir) initialState))).
    { intros hot. destruct readdir as [files|r]; cbn [loadAllTools].
      - destruct (loadFilesRejects _ _ _); [apply Hemit|]; now apply Hfiles, Hemit.
      - now do 2 apply Hemit. }
    destruct (hotReload _ _); [destruct watched|]; cbn [process state];
      repeat apply Hemit; apply Hscan. }
  change (state (process (main readdir watched worlds0)))
    with (state (proc (idle (process (main readdir watched worlds0))))) in Hmain.
  revert Hmain. generalize (idle (process (main readdir watched worlds0))). intros a.
  revert a. induction steps as [|s steps IH]; intros a Ha; [exact Ha|].
  cbn [asyncRun foldl]. apply IH.
  destruct s as [ev|now|i outcome now|i outcome|i|i outcome]; cbn [asyncStep].
  - cbn [proc]. unfold watch_callback. destruct (filename ev) as [fn|]; cbn [state];
      [|now apply Hemit].
    destruct (_ && _); cbn [state scheduleReload]; repeat apply Hemit; exact Ha.
  - unfold timerFires. destruct (reloadTimeout (proc a)); [|exact Ha].
    destruct (_ <=? _); [|exact Ha].
    destruct (pendingReloads (proc a)) as [|file files]; [exact Ha|].
    pose proof (Hnext (file :: files) (state (proc a)) Ha) as Hn.
    destruct (nextFile (file :: files) (state (proc a))) as [st b]. exact Hn.
  - apply Hresume; [|exact Ha]. intros b st st' ob Hk Hst. unfold statSettled in Hk.
    destruct (awaiting b); try discriminate.
    destruct outcome; injection Hk as <- _; [exact Hst | now apply Hfailed].
  - apply Hresume; [|exact Ha]. intros b st st' ob Hk Hst. unfold importSettled in Hk.
    destruct (awaiting b); try discriminate.
    destruct outcome; injection Hk as <- _; [now apply Hexports | now apply Hfailed].
  - apply Hresume; [|exact Ha]. intros b st st' ob Hk Hst. unfold loadToolFileSettled in Hk.
    destruct (awaiting b) as [| |[e|]|]; try discriminate.
    + now injection Hk as <- _.
    + pose proof (Hnext (remaining b) st Hst) as Hn.
      destruct (nextFile (remaining b) st) as [st2 b2]. now injection Hk as <- _.
  - apply Hresume; [|exact Ha]. intros b st st' ob Hk Hst. unfold sendSettled in Hk.
    destruct (awaiting b); try discriminate.
    destruct outcome; injection Hk as <- _; [exact Hst | now apply Hemit].
Qed.

(** X7. After start-up and after any steps of the event loop (watch
    callbacks, firings of the timer and continuations of the batches in
    flight, in any order and with any outcome of [stat], of [import] and
    of the notification), every tool in the server's table is tracked
    for some file: nothing is live that the loader could not
    unregister. *)
Theorem every_live_tool_is_tracked
    (readdir : settled (list string)) (watched : settled unit)
    (worlds0 : string -> World) (steps : list Step) :
  liveTracked
    (state (proc (asyncRun steps (idle (process (main readdir watched worlds0)))))).
Proof.
  apply (async_invariant liveTracked).
  - intros e st Hst. exact Hst.
  - intros file st Hst name Hsome. rewrite unregisterFileTools_tools in Hsome.
    destruct (decide (name ∈ ownedBy (stripExtension file) st)) as [|Hnot];
      [now destruct Hsome|].
    destruct (Hst name Hsome) as [b Hb]. exists b.
    rewrite ownedBy_unregisterFileTools.
    destruct (decide (stripExtension file = b)) as [<-|]; [contradiction | exact Hb].
  - intros name tool baseName st Hst name' Hsome. rewrite registerTool_tools in Hsome.
    destruct (decide (name = name')) as [<-|Hne].
    + exists baseName. rewrite ownedBy_registerTool, decide_True by reflexivity.
      apply elem_of_union. right. now apply elem_of_singleton.
    + rewrite lookup_insert_ne in Hsome by assumption.
      destruct (Hst name' Hsome) as [b Hb]. exists b. rewrite ownedBy_registerTool.
      destruct (decide (baseName = b)); [apply elem_of_union; now left | exact Hb].
  - intros name [x Hx]. unfold initialState in Hx. cbn [_registeredTools] in Hx.
    now rewrite lookup_empty in Hx.
Qed.

(** X8. After start-up and after any steps of the event loop (in any
    order and with any outcomes, as above), a base name is tracked only
    with at least one tool: a file whose reload yields no tool has no
    entry at all. *)
Theorem no_empty_registration
    (readdir : settled (list string)) (watched : settled unit)
    (worlds0 : string -> World) (steps : list Step) :
  noEmptyEntry
    (state (proc (asyncRun steps (idle (process (main readdir watched worlds0)))))).
Proof.
  apply (async_invariant noEmptyEntry).
  - intros e st Hst. exact Hst.
  - intros file st Hst b X HX. rewrite unregisterFileTools_tracked in HX.
    apply lookup_delete_Some in HX as [_ HX]. exact (Hst b X HX).
  - intros name tool baseName st Hst b X HX. rewrite tracked_registerTool in HX.
    destruct (decide (baseName = b)) as [_|_]; [|exact (Hst b X HX)].
    injection HX as <-. intros Hempty.
    assert (Hin : name ∈ ownedBy baseName st ∪ {[name]})
      by (apply elem_of_union; right; now apply elem_of_singleton).
    rewrite Hempty in Hin. now apply not_elem_of_empty in Hin.
  - intros b X HX. unfold initialState in HX. cbn [registeredTools] in HX.
    now rewrite lookup_empty in HX.
Qed.

(** ** The event loop *)

Lemma watch_callback_timer (ev : FsEvent) (p : Process) :
  let p' := watch_callback (at_ ev) (eventType ev) (filename ev) p in
  reloadTimeout p' = (if namesToolFile ev then Some (at_ ev + 100) else reloadTimeout p) /\
  (namesToolFile ev = false -> pendingReloads p' = pendingReloads p) /\
  (namesToolFile ev = true -> pendingReloads p' <> []) /\
  sameTables (state p') (state p) /\
  calls (trace (state p')) = calls (trace (state p)).
Proof.
  pose proof (watch_callback_cases (at_ ev) (eventType ev) (filename ev) p) as [Hc _].
  cbv zeta in *. split; [|split; [|split; [|split; [|exact Hc]]]].
  all: unfold watch_callback, namesToolFile; destruct (filename ev) as [fn|];
    cbn [reloadTimeout pendingReloads state]; try (split; reflexivity); try done.
  all: destruct (_ && _); cbn [reloadTimeout pendingReloads state scheduleReload];
    try (split; reflexivity); try done.
  intros _. unfold setAdd. case_bool_decide as Hin.
  - intros Hnil. rewrite Hnil in Hin. now apply elem_of_nil in Hin.
  - now destruct (pendingReloads p).
Qed.

(** X9. The timer is armed exactly while files are pending: after
    start-up and after any run of the event loop, there is a deadline if
    and only if the pending set is not empty, and the pending set lists
    no file twice. *)
Theorem timer_armed_iff_pending
    (readdir : settled (list string)) (watched : settled unit)
    (worlds0 worlds : string -> World) (sent : settled unit) (events : list FsEvent) :
  let p := run worlds sent events (process (main readdir watched worlds0)) in
  (reloadTimeout p = None <-> pendingReloads p = []) /\ NoDup (pendingReloads p).
Proof.
  cbv zeta.
  assert (Hmain : (reloadTimeout (process (main readdir watched worlds0)) = None <->
                   pendingReloads (process (main readdir watched worlds0)) = []) /\
                  NoDup (pendingReloads (process (main readdir watched worlds0)))).
  { unfold main, startup. destruct (hotReload _ _); [destruct watched|];
      cbn [process reloadTimeout pendingReloads]; (split; [tauto | apply NoDup_nil_2]). }
  revert Hmain. generalize (process (main readdir watched worlds0)). intros p.
  revert p. induction events as [|ev events IH]; intros p Hp; [exact Hp|].
  change (run worlds sent (ev :: events) p)
    with (run worlds sent events (deliver worlds sent p ev)).
  apply IH. unfold deliver.
  assert (Hexp : (reloadTimeout (expire worlds sent (at_ ev) p) = None <->
                  pendingReloads (expire worlds sent (at_ ev) p) = []) /\
                 NoDup (pendingReloads (expire worlds sent (at_ ev) p))).
  { unfold expire. destruct (reloadTimeout p) as [d|] eqn:Ed; [|now rewrite Ed].
    destruct (d <=? at_ ev); [|now rewrite Ed].
    cbn. split; [tauto | apply NoDup_nil_2]. }
  revert Hexp. generalize (expire worlds sent (at_ ev) p). intros p' [Hiff Hnd].
  destruct (watch_callback_timer ev p') as (Ht & Hsame & Hne & _). split.
  - rewrite Ht. destruct (namesToolFile ev).
    + split; [discriminate | intros Hnil; now apply Hne in Hnil].
    + now rewrite Hsame.
  - destruct (watch_callback_cases (at_ ev) (eventType ev) (filename ev) p')
      as [_ [(fn & _ & _ & -> & _)|(_ & -> & _)]]; [now apply setAdd_NoDup | assumption].
Qed.

(** X10. While every event arrives before the deadline armed at that
    moment, the timer does not fire: the event loop only accumulates, no
    reload or notification happens, and the deadline ends 100 ms after
    the last event that named a tool file. *)
Theorem debounce_slides (worlds : string -> World) (sent : settled unit)
    (events : list FsEvent) (p : Process) :
  beforeDeadline (reloadTimeout p) events = true ->
  run worlds sent events p = accumulate events p /\
  reloadTimeout (run worlds sent events p) = deadlineAfter (reloadTimeout p) events /\
  calls (trace (state (run worlds sent events p))) = calls (trace (state p)).
Proof.
  revert p. induction events as [|ev events IH]; intros p Hq; [repeat split|].
  cbn [beforeDeadline] in Hq. apply andb_true_iff in Hq as [Hev Hrest].
  change (run worlds sent (ev :: events) p)
    with (run worlds sent events (deliver worlds sent p ev)).
  change (accumulate (ev :: events) p)
    with (accumulate events (watch_callback (at_ ev) (eventType ev) (filename ev) p)).
  assert (Hexp : expire worlds sent (at_ ev) p = p).
  { unfold expire. destruct (reloadTimeout p) as [d|]; [|reflexivity].
    apply Z.ltb_lt in Hev. destruct (Z.leb_spec d (at_ ev)); [lia | reflexivity]. }
  unfold deliver. rewrite Hexp.
  destruct (watch_callback_timer ev p) as (Ht & _ & _ & _ & Hc).
  cbn [deadlineAfter]. rewrite <- Ht in Hrest |- *.
  destruct (IH _ Hrest) as (Hrun & Hdl & Hcalls).
  split; [exact Hrun|]. split; [exact Hdl|]. now rewrite Hcalls.
Qed.

(** X12. Events that name no tool file (no file name, or one without
    [.ts] or [.js]) never arm the timer: from an idle watcher nothing is
    pending afterwards, nothing is reloaded and the tables stay. *)
Theorem other_events_ignored (worlds : string -> World) (sent : settled unit)
    (events : list FsEvent) (p : Process) :
  reloadTimeout p = None ->
  (forall ev, ev ∈ events -> namesToolFile ev = false) ->
  let p' := run worlds sent events p in
  reloadTimeout p' = None /\
  pendingReloads p' = pendingReloads p /\
  sameTables (state p') (state p) /\
  calls (trace (state p')) = calls (trace (state p)).
Proof.
  revert p. induction events as [|ev events IH]; intros p Ht Hall;
    [cbn; repeat split; auto|].
  change (run worlds sent (ev :: events) p)
    with (run worlds sent events (deliver worlds sent p ev)).
  assert (Hexp : expire worlds sent (at_ ev) p = p) by (unfold expire; now rewrite Ht).
  assert (Hev : namesToolFile ev = false) by (apply Hall; left).
  destruct (watch_callback_timer ev p) as (Ht1 & Hp1 & _ & Hs1 & Hc1).
  rewrite Hev, Ht in Ht1. specialize (Hp1 Hev).
  unfold deliver. rewrite Hexp.
  destruct (IH (watch_callback (at_ ev) (eventType ev) (filename ev) p) Ht1)
    as (Ht2 & Hp2 & [Hs2 Hs2'] & Hc2); [intros ev' Hin; apply Hall; now right|].
  cbv zeta. split; [exact Ht2|]. split; [congruence|]. destruct Hs1 as [Hs1 Hs1'].
  split; [split; congruence | congruence].
Qed.

(** ** Schemas and the helper *)

Lemma remove_dups_nonempty (l : list string) : l <> [] -> remove_dups l <> [].
Proof.
  destruct l as [|x l]; [contradiction|]. intros _ Hnil.
  assert (Hin : x ∈ remove_dups (x :: l)) by (apply elem_of_remove_dups; left).
  rewrite Hnil in Hin. now apply elem_of_nil in Hin.
Qed.

(** X13. A tool whose [args] is an object with at least one key is
    registered with that object as its schema, and its callback passes
    the arguments it is called with on to [execute]. *)
Theorem nonempty_args_passed_on (tool : value) (props : list (string * value)) :
  getProp "args" tool = VObject props ->
  props <> [] ->
  inputSchema (entryOf tool) = Some (VObject props) /\
  forall args extra,
    invokeCallback (callback (entryOf tool)) args extra =
    (result ← execute tool args extra; mret (response result)).
Proof.
  intros Hargs Hne.
  assert (Hschema : schemaOf tool = VObject props).
  { unfold schemaOf. rewrite Hargs. cbn [truthy Object_keys_length andb].
    rewrite bool_decide_true; [reflexivity|].
    assert (remove_dups props.*1 <> []) as Hnd
      by (apply remove_dups_nonempty; now destruct props).
    destruct (remove_dups props.*1); [contradiction | cbn; lia]. }
  unfold entryOf. rewrite Hschema. cbn [truthy inputSchema callback invokeCallback].
  split; reflexivity.
Qed.

(** X14. A tool made with the helper from a description, optional
    [args] and an [execute] function, and exported from a tool file, is
    always registered: under the name derived from the file and the
    export, with its description, and with a callback that runs its
    [execute]. *)
Theorem helper_tools_are_registered (hotReload : bool) (w : World) (file : string)
    (st : State) (module : Module) (key desc : string) (args : option value) (f : Fn) :
  isToolFile file = true ->
  loadModule hotReload w file = Fulfilled module ->
  module !! key = Some (tool (toolConfig desc args f)) ->
  let st' := loadToolFile hotReload w file st in
  let name := toolName (stripExtension file) key in
  name ∈ ownedBy (stripExtension file) st' /\
  exists entry,
    _registeredTools st' !! name = Some entry /\
    description entry = VString desc /\
    (args = None -> inputSchema entry = None) /\
    forall a extra,
      invokeCallback (callback entry) a extra =
      (result ← call f (passedArgs (toolConfig desc args f) a) extra;
       mret (response result)).
Proof.
  intros Hf Hload Hm st' name.
  assert (Hv : isToolDefinition (tool (toolConfig desc args f)) = true)
    by (destruct args; reflexivity).
  destruct (loadToolFile_tool_names_aux hotReload w file st module key _ Hf Hload Hm Hv)
    as [Htab Hown].
  split; [exact Hown|]. exists (entryOf (tool (toolConfig desc args f))).
  split; [exact Htab|]. split; [|split].
  - unfold entryOf. destruct (truthy _); destruct args; reflexivity.
  - intros ->. reflexivity.
  - intros a extra. rewrite invoke_entryOf. unfold execute, tool.
    now destruct args.
Qed.

Lemma pending_watch_callback (ev : FsEvent) (p : Process) :
  pendingReloads (watch_callback (at_ ev) (eventType ev) (filename ev) p) =
  match (if namesToolFile ev then filename ev else None) with
  | Some fn => setAdd fn (pendingReloads p)
  | None => pendingReloads p
  end.
Proof.
  unfold watch_callback, namesToolFile. destruct (filename ev) as [fn|]; [|reflexivity].
  now destruct (_ && _).
Qed.

Lemma pending_accumulate (events : list FsEvent) (p : Process) :
  pendingReloads (accumulate events p) =
  foldl (fun l fn => setAdd fn l) (pendingReloads p) (changedToolFiles events).
Proof.
  revert p. induction events as [|ev events IH]; intros p; [reflexivity|].
  change (accumulate (ev :: events) p)
    with (accumulate events (watch_callback (at_ ev) (eventType ev) (filename ev) p)).
  rewrite IH, pending_watch_callback. unfold changedToolFiles. cbn [omap list_omap].
  now destruct (if namesToolFile ev then filename ev else None).
Qed.

(** X20. The files of a batch are reloaded in the order in which they
    first changed: the pending set lists each tool file the events
    named once, at the place of its first event. *)
Theorem batch_in_order_of_first_change (events : list FsEvent) (st : State)
    (timeout : option Z) :
  pendingReloads (accumulate events
                    {| state := st; reloadTimeout := timeout; pendingReloads := [] |}) =
  reverse (remove_dups (reverse (changedToolFiles events))).
Proof.
  rewrite pending_accumulate. cbn [pendingReloads].
  induction (changedToolFiles events) as [|x names IH] using rev_ind; [reflexivity|].
  rewrite foldl_app, reverse_app. cbn [foldl reverse]. rewrite IH.
  change (reverse [x] ++ reverse names) with (x :: reverse names).
  cbn [remove_dups]. unfold setAdd.
  destruct (decide_rel elem_of x (reverse names)) as [Hin|Hnot].
  - rewrite bool_decide_true; [reflexivity|].
    rewrite elem_of_reverse, elem_of_remove_dups. exact Hin.
  - rewrite bool_decide_false.
    + now rewrite reverse_cons.
    + rewrite elem_of_reverse, elem_of_remove_dups. exact Hnot.
Qed.

End MoreFacts.

(** ** File and tool names *)

Lemma endsWith_false_inv (c : Ascii.ascii) (s suffix : string) :
  endsWith (String c s) suffix = false ->
  String.eqb (String c s) suffix = false /\ endsWith s suffix = false.
Proof. rewrite endsWith_eq. cbv iota. apply orb_false_iff. Qed.

(** X15. The base name and the extension make the file name and back:
    [b.ts] and [b.js] are tool files with base name [b], whatever [b]
    is. *)
Theorem tool_file_name_roundtrip (b : string) :
  isToolFile (b +:+ ".ts") = true /\ stripExtension (b +:+ ".ts") = b /\
  isToolFile (b +:+ ".js") = true /\ stripExtension (b +:+ ".js") = b.
Proof.
  unfold isToolFile. rewrite !endsWith_app, orb_true_r.
  rewrite !stripExtension_app by auto. repeat split.
Qed.

(** X16. A file name that does not end in [.ts] or [.js] is its own
    base name: nothing is stripped from it. *)
Theorem stripExtension_other_file (file : string) :
  isToolFile file = false -> stripExtension file = file.
Proof.
  unfold isToolFile. induction file as [|c file IH]; [reflexivity|].
  intros Hf. apply orb_false_iff in Hf as [Hts Hjs].
  apply endsWith_false_inv in Hts as [Ets Hts], Hjs as [Ejs Hjs].
  cbn [stripExtension]. rewrite Ets, Ejs. cbn [orb].
  rewrite IH; [reflexivity|]. now rewrite Hts, Hjs.
Qed.

(** X17. Within one file no two exports get the same tool name. *)
Theorem export_names_distinct (baseName k1 k2 : string) :
  k1 <> k2 -> toolName baseName k1 <> toolName baseName k2.
Proof. intros Hne Heq. apply Hne. exact (toolName_inj baseName k1 k2 Heq). Qed.

(** ** The code-map tool *)

Lemma candidate_inj (info : CodeMap.TypeInfo) : Inj (=) (=) (CodeMap.candidate info).
Proof.
  intros i j Heq. unfold CodeMap.candidate in Heq.
  apply (inj (String.append _)) in Heq. now apply (inj pretty) in Heq.
Qed.

Lemma resolveName_fresh (fuel : nat) (used : gset string) (info : CodeMap.TypeInfo)
    (name : string) (counter : nat) (n : string) :
  CodeMap.resolveName fuel used info name counter = Some n -> n ∉ used.
Proof.
  revert name counter. induction fuel as [|fuel IH]; intros name counter; cbn;
    case_bool_decide; try discriminate; try (now intros [= <-]).
  apply IH.
Qed.

Lemma resolveName_None (fuel : nat) (used : gset string) (info : CodeMap.TypeInfo)
    (name : string) (counter : nat) :
  CodeMap.resolveName fuel used info name counter = None ->
  forall j, (j < fuel)%nat -> CodeMap.candidate info (counter + j) ∈ used.
Proof.
  revert name counter. induction fuel as [|fuel IH]; intros name counter Hn j Hj; [lia|].
  cbn in Hn. case_bool_decide; [|discriminate].
  destruct j as [|j].
  - rewrite Nat.add_0_r. destruct fuel; cbn in Hn; case_bool_decide; done.
  - replace (counter + S j)%nat with (S counter + j)%nat by lia.
    apply (IH _ _ Hn). lia.
Qed.

(** The loop that looks for a free name ends within one turn more than
    there are names in use. *)
Lemma resolveName_enough_fuel (fuel : nat) (used : gset string) (info : CodeMap.TypeInfo)
    (name : string) (counter : nat) :
  (size used < fuel)%nat ->
  is_Some (CodeMap.resolveName fuel used info name counter).
Proof.
  intros Hfuel.
  destruct (CodeMap.resolveName fuel used info name counter) eqn:E; [eauto|].
  exfalso. pose proof (resolveName_None _ _ _ _ _ E) as Hall.
  set (l := CodeMap.candidate info <$> seq counter fuel).
  assert (Hnd : NoDup l).
  { apply (NoDup_fmap_2 (CodeMap.candidate info) (Inj0 := candidate_inj info)).
    apply NoDup_seq. }
  assert (Hsub : list_to_set l ⊆ used).
  { intros x Hx. apply elem_of_list_to_set in Hx.
    apply list_elem_of_fmap in Hx as (i & -> & Hi). apply elem_of_seq in Hi.
    replace i with (counter + (i - counter))%nat by lia. apply Hall. lia. }
  apply subseteq_size in Hsub. rewrite size_list_to_set in Hsub by assumption.
  subst l. rewrite length_fmap, length_seq in Hsub. lia.
Qed.

Lemma mapSet_fresh (key : string) (v : CodeMap.TypeInfo)
    (m : list (string * CodeMap.TypeInfo)) :
  key ∉ m.*1 -> CodeMap.mapSet key v m = m ++ [(key, v)].
Proof.
  induction m as [|[k x] m IH]; intros Hnot; [reflexivity|].
  cbn in *. apply not_elem_of_cons in Hnot as [Hne Hnot].
  rewrite (proj2 (String.eqb_neq k key)) by congruence. now rewrite IH.
Qed.

Lemma finalizeLoop_spec (fuel : nat) (acc : CodeMap.Finalizing)
    (rest : list (string * CodeMap.TypeInfo)) :
  NoDup ((CodeMap.visited acc).*1 ++ rest.*1) ->
  (length (CodeMap.visited acc) + length rest <= fuel)%nat ->
  CodeMap.sharedTypes acc = CodeMap.sharedOf (CodeMap.visited acc) ->
  (forall e, e ∈ CodeMap.sharedTypes acc ->
             exists n, CodeMap.finalName e.2 = Some n /\ n ∈ CodeMap.usedNames acc) ->
  NoDup (CodeMap.finalNames (CodeMap.sharedTypes acc)) ->
  (size (CodeMap.usedNames acc) <= length (CodeMap.visited acc))%nat ->
  exists acc' rest',
    CodeMap.finalizeLoop fuel acc rest = Some acc' /\
    CodeMap.visited acc' = CodeMap.visited acc ++ rest' /\
    Forall2 CodeMap.finalized rest rest' /\
    CodeMap.sharedTypes acc' = CodeMap.sharedOf (CodeMap.visited acc') /\
    (forall e, e ∈ CodeMap.sharedTypes acc' -> is_Some (CodeMap.finalName e.2)) /\
    NoDup (CodeMap.finalNames (CodeMap.sharedTypes acc')).
Proof.
  revert acc. induction rest as [|[h info] rest IH];
    intros acc Hkeys Hfuel Hshared Hnames Hnd Hsize.
  - exists acc, []. cbn. rewrite app_nil_r. repeat split; auto.
    intros e He. destruct (Hnames e He) as (n & -> & _). eauto.
  - cbn [CodeMap.finalizeLoop CodeMap.finalizeStep].
    assert (Hh : h ∉ (CodeMap.visited acc).*1).
    { apply NoDup_app in Hkeys as (_ & Hdis & _). intros Hin.
      apply (Hdis h Hin). left. }
    assert (Hkeys' : NoDup (((CodeMap.visited acc).*1 ++ [h]) ++ rest.*1))
      by now rewrite <- app_assoc.
    destruct (CodeMap.isShared info) eqn:Hq.
    + destruct (resolveName_enough_fuel fuel (CodeMap.usedNames acc) info
                  (CodeMap.firstName info) 1) as [n Hn]; [cbn in Hfuel; lia|].
      rewrite Hn. cbn [mbind option_bind].
      pose proof (resolveName_fresh _ _ _ _ _ _ Hn) as Hfresh.
      assert (Hset : CodeMap.mapSet h (CodeMap.withFinalName info n)
                       (CodeMap.sharedTypes acc) =
                     CodeMap.sharedTypes acc ++ [(h, CodeMap.withFinalName info n)]).
      { apply mapSet_fresh. intros Hin. apply Hh. rewrite Hshared in Hin.
        apply list_elem_of_fmap in Hin as (e & -> & He).
        apply list_elem_of_filter in He as [_ He].
        apply list_elem_of_fmap. now exists e. }
      rewrite Hset.
      edestruct (IH {| CodeMap.visited :=
                         CodeMap.visited acc ++ [(h, CodeMap.withFinalName info n)];
                       CodeMap.sharedTypes :=
                         CodeMap.sharedTypes acc ++ [(h, CodeMap.withFinalName info n)];
                       CodeMap.usedNames := CodeMap.usedNames acc ∪ {[n]} |})
        as (acc' & rest' & Hrun & Hv & Hrel & Hs & Hf & Hn'); cbn [CodeMap.visited
          CodeMap.sharedTypes CodeMap.usedNames].
      * now rewrite fmap_app.
      * rewrite length_app. cbn in *. lia.
      * rewrite Hshared. unfold CodeMap.sharedOf.
        rewrite filter_app, filter_cons, filter_nil.
        cbn [snd]. now rewrite decide_True by exact Hq.
      * intros e He. apply elem_of_app in He as [He|He].
        -- destruct (Hnames e He) as (m & Hm & Hin). exists m. split; [assumption|].
           apply elem_of_union. now left.
        -- apply list_elem_of_singleton in He as ->. exists n. split; [reflexivity|].
           apply elem_of_union. right. now apply elem_of_singleton.
      * unfold CodeMap.finalNames. rewrite fmap_app. apply NoDup_app.
        split; [exact Hnd|]. split; [|apply NoDup_singleton].
        intros o Ho Hsing. apply list_elem_of_singleton in Hsing as ->.
        apply list_elem_of_fmap in Ho as (e & He & Hin).
        destruct (Hnames e Hin) as (m & Hm & Hused). cbn in He. congruence.
      * rewrite length_app. cbn [length].
        rewrite size_union by (apply disjoint_singleton_r; exact Hfresh).
        rewrite size_singleton. lia.
      * exists acc', ((h, CodeMap.withFinalName info n) :: rest').
        split; [exact Hrun|]. cbn [CodeMap.visited] in Hv.
        rewrite <- app_assoc in Hv. split; [exact Hv|].
        split; [|auto]. constructor; [|exact Hrel].
        split; [reflexivity|]. cbn [snd]. rewrite Hq. now exists n.
    + edestruct (IH {| CodeMap.visited := CodeMap.visited acc ++ [(h, info)];
                       CodeMap.sharedTypes := CodeMap.sharedTypes acc;
                       CodeMap.usedNames := CodeMap.usedNames acc |})
        as (acc' & rest' & Hrun & Hv & Hrel & Hs & Hf & Hn'); cbn [CodeMap.visited
          CodeMap.sharedTypes CodeMap.usedNames].
      * now rewrite fmap_app.
      * rewrite length_app. cbn in *. lia.
      * rewrite Hshared. unfold CodeMap.sharedOf.
        rewrite filter_app, filter_cons, filter_nil.
        cbn [snd]. rewrite decide_False by (rewrite Hq; discriminate).
        now rewrite app_nil_r.
      * exact Hnames.
      * exact Hnd.
      * rewrite length_app. cbn [length]. lia.
      * exists acc', ((h, info) :: rest').
        split; [exact Hrun|]. cbn [CodeMap.visited] in Hv.
        rewrite <- app_assoc in Hv. split; [exact Hv|].
        split; [|auto]. constructor; [|exact Hrel].
        split; [reflexivity|]. cbn [snd]. now rewrite Hq.
Qed.

(** X18. [finalizeTypes] ends (each search for a free name takes at
    most as many turns as the map has entries) and gives the shared
    types pairwise distinct final names: the shared types are the
    entries used twice or more whose text is long or has a brace, each
    gets a final name, every other entry is left as it was. *)
Theorem finalizeTypes_distinct_names (fuel : nat)
    (typeMap : list (string * CodeMap.TypeInfo)) :
  NoDup typeMap.*1 ->
  (length typeMap <= fuel)%nat ->
  exists typeMap' shared,
    CodeMap.finalizeTypes fuel typeMap = Some (typeMap', shared) /\
    Forall2 CodeMap.finalized typeMap typeMap' /\
    shared = CodeMap.sharedOf typeMap' /\
    (forall e, e ∈ shared -> is_Some (CodeMap.finalName e.2)) /\
    NoDup (CodeMap.finalNames shared).
Proof.
  intros Hkeys Hfuel. unfold CodeMap.finalizeTypes.
  destruct (finalizeLoop_spec fuel
              {| CodeMap.visited := []; CodeMap.sharedTypes := [];
                 CodeMap.usedNames := ∅ |} typeMap)
    as (acc' & rest' & Hrun & Hv & Hrel & Hs & Hf & Hn);
    cbn [CodeMap.visited CodeMap.sharedTypes CodeMap.usedNames].
  - exact Hkeys.
  - exact Hfuel.
  - reflexivity.
  - intros e He. now apply elem_of_nil in He.
  - apply NoDup_nil_2.
  - rewrite size_empty. cbn. lia.
  - rewrite Hrun. cbn. cbn in Hv. subst rest'.
    exists (CodeMap.visited acc'), (CodeMap.sharedTypes acc'). auto.
Qed.

(** ** The further facts at work on the scenario *)

Ltac decide_by_compute :=
  match goal with
  | |- ?P => apply (@bool_decide_unpack P _); vm_compute; exact I
  end.

(** Reloading the edited [math.ts] leaves [greet] alone. *)
Lemma reload_frame_witness :
  let st := Scenario.scanned in
  let st' := loadToolFile true Scenario.world1_edited "math.ts" st in
  "greet" <> stripExtension "math.ts" /\
  registeredTools st' !! "greet" = registeredTools st !! "greet" /\
  ("greet" ∉ touchedNames true Scenario.world1_edited "math.ts" st) /\
  _registeredTools st' !! "greet" = _registeredTools st !! "greet".
Proof.
  intros st st'.
  destruct (reload_frame true Scenario.world1_edited "math.ts" st) as [Hr Ht].
  assert (Hne : "greet" <> stripExtension "math.ts") by discriminate.
  assert (Hnot : "greet" ∉ touchedNames true Scenario.world1_edited "math.ts" st)
    by decide_by_compute.
  split; [exact Hne|]. split; [exact (Hr "greet" Hne)|].
  split; [exact Hnot | exact (Ht "greet" Hnot)].
Defined.

(** [math.ts] and [greet.ts] can be loaded in either order. *)
Lemma reloads_commute_witness :
  let w := Scenario.world1 in
  let st := @initialState Scenario.toolFn in
  isToolFile "math.ts" = true /\
  isToolFile "greet.ts" = true /\
  stripExtension "math.ts" <> stripExtension "greet.ts" /\
  touchedNames true w "math.ts" st ## touchedNames true w "greet.ts" st /\
  sameTables (loadToolFile true w "greet.ts" (loadToolFile true w "math.ts" st))
             (loadToolFile true w "math.ts" (loadToolFile true w "greet.ts" st)).
Proof.
  intros w st.
  assert (Hne : stripExtension "math.ts" <> stripExtension "greet.ts") by discriminate.
  assert (Hdisj : touchedNames true w "math.ts" st ## touchedNames true w "greet.ts" st)
    by decide_by_compute.
  split; [reflexivity|]. split; [reflexivity|]. split; [exact Hne|].
  split; [exact Hdisj|].
  apply (reloads_commute true w w "math.ts" "greet.ts" st); [reflexivity.. | exact Hne | exact Hdisj].
Defined.

(** [math.ts] is loaded, then deleted. *)
Lemma deletion_retracts_witness :
  let w1 := Scenario.world1 in
  let w2 := Scenario2.world1_deleted in
  let st := @initialState Scenario.toolFn in
  isToolFile "math.ts" = true /\
  loadModule true w1 "math.ts" = Fulfilled Scenario.math_v1 /\
  stat w2 (join toolDir "math.ts") = Rejected Scenario.ENOENT /\
  code Scenario.ENOENT = Some "ENOENT" /\
  let st1 := loadToolFile true w1 "math.ts" st in
  let st2 := loadToolFile true w2 "math.ts" st1 in
  registeredTools st2 !! stripExtension "math.ts" = None /\
  (forall key v, Scenario.math_v1 !! key = Some v -> isToolDefinition v = true ->
                 _registeredTools st2 !! toolName (stripExtension "math.ts") key = None) /\
  failures (trace st2) = failures (trace st1) ++ [LogFileDeleted "math.ts"].
Proof.
  intros w1 w2 st. do 4 (split; [reflexivity|]).
  apply (deletion_retracts true w1 w2 "math.ts" Scenario.math_v1 Scenario.ENOENT st);
    reflexivity.
Defined.

(** Four events, each before the deadline armed at that moment. *)
Lemma debounce_slides_witness :
  let worlds := fun _ : string => Scenario.world1_edited in
  let p := {| state := Scenario.scanned; reloadTimeout := None; pendingReloads := [] |} in
  beforeDeadline (reloadTimeout p) Scenario2.slidingEvents = true /\
  run worlds (Fulfilled tt) Scenario2.slidingEvents p =
    accumulate Scenario2.slidingEvents p /\
  reloadTimeout (run worlds (Fulfilled tt) Scenario2.slidingEvents p) =
    deadlineAfter (reloadTimeout p) Scenario2.slidingEvents /\
  calls (trace (state (run worlds (Fulfilled tt) Scenario2.slidingEvents p))) =
    calls (trace (state p)).
Proof.
  intros worlds p. split; [reflexivity|].
  apply (debounce_slides worlds (Fulfilled tt) Scenario2.slidingEvents p). reflexivity.
Defined.

(** An event for [notes.md] and one without a file name. *)
Lemma other_events_ignored_witness :
  let worlds := fun _ : string => Scenario.world1 in
  let events := [ mkFsEvent 10 "change" (Some "notes.md"); mkFsEvent 500 "rename" None ] in
  let p := {| state := Scenario.scanned; reloadTimeout := None; pendingReloads := [] |} in
  reloadTimeout p = None /\
  (forall ev, ev ∈ events -> namesToolFile ev = false) /\
  let p' := run worlds (Fulfilled tt) events p in
  reloadTimeout p' = None /\
  pendingReloads p' = pendingReloads p /\
  sameTables (state p') (state p) /\
  calls (trace (state p')) = calls (trace (state p)).
Proof.
  intros worlds events p.
  assert (Hall : forall ev, ev ∈ events -> namesToolFile ev = false).
  { intros ev Hin. subst events.
    repeat (apply elem_of_cons in Hin as [-> | Hin]; [reflexivity|]).
    now apply elem_of_nil in Hin. }
  split; [reflexivity|]. split; [exact Hall|].
  apply (other_events_ignored worlds (Fulfilled tt) events p); [reflexivity | exact Hall].
Defined.

(** The schema of [add]. *)
Lemma nonempty_args_passed_on_witness :
  let props := [("a", VString "number"); ("b", VString "number")] in
  getProp "args" Scenario.addTool = VObject props /\
  props <> [] /\
  inputSchema (entryOf Scenario.addTool) = Some (VObject props) /\
  forall args extra,
    invokeCallback (callback (entryOf Scenario.addTool)) args extra =
    (result ← execute Scenario.addTool args extra; mret (response result)).
Proof.
  intros props. split; [reflexivity|]. split; [discriminate|].
  apply (nonempty_args_passed_on Scenario.addTool props); [reflexivity | discriminate].
Defined.

(** [add], made with the helper and exported from [math.ts]. *)
Lemma helper_tools_are_registered_witness :
  let w := Scenario.world1 in
  let args := Some Scenario.numberSchema in
  isToolFile "math.ts" = true /\
  loadModule true w "math.ts" = Fulfilled Scenario.math_v1 /\
  Scenario.math_v1 !! "add" =
    Some (tool (toolConfig "Add two numbers" args Scenario.FnAdd)) /\
  let st' := loadToolFile true w "math.ts" initialState in
  let name := toolName (stripExtension "math.ts") "add" in
  name ∈ ownedBy (stripExtension "math.ts") st' /\
  exists entry,
    _registeredTools st' !! name = Some entry /\
    description entry = VString "Add two numbers" /\
    (args = None -> inputSchema entry = None) /\
    forall a extra,
      invokeCallback (callback entry) a extra =
      (result ← call Scenario.FnAdd
                  (passedArgs (toolConfig "Add two numbers" args Scenario.FnAdd) a) extra;
       mret (response result)).
Proof.
  intros w args. do 3 (split; [reflexivity|]).
  apply (helper_tools_are_registered true w "math.ts" initialState Scenario.math_v1
           "add" "Add two numbers" args Scenario.FnAdd); reflexivity.
Defined.

(** [README.md] is no tool file. *)
Lemma stripExtension_other_file_witness :
  isToolFile "README.md" = false /\ stripExtension "README.md" = "README.md".
Proof.
  split; [reflexivity|]. apply (stripExtension_other_file "README.md"). reflexivity.
Defined.

(** The two exports of [math.ts]. *)
Lemma export_names_distinct_witness :
  "add" <> "multiply" /\ toolName "math" "add" <> toolName "math" "multiply".
Proof.
  assert (Hne : "add" <> "multiply") by discriminate.
  split; [exact Hne|]. exact (export_names_distinct "math" "add" "multiply" Hne).
Defined.

(** Two shared types that suggest the same name. *)
Lemma finalizeTypes_distinct_names_witness :
  NoDup Scenario2.typeMap.*1 /\
  (length Scenario2.typeMap <= 3)%nat /\
  exists typeMap' shared,
    CodeMap.finalizeTypes 3 Scenario2.typeMap = Some (typeMap', shared) /\
    Forall2 CodeMap.finalized Scenario2.typeMap typeMap' /\
    shared = CodeMap.sharedOf typeMap' /\
    (forall e, e ∈ shared -> is_Some (CodeMap.finalName e.2)) /\
    NoDup (CodeMap.finalNames shared).
Proof.
  assert (Hnd : NoDup Scenario2.typeMap.*1) by decide_by_compute.
  assert (Hlen : (length Scenario2.typeMap <= 3)%nat) by (cbn; lia).
  split; [exact Hnd|]. split; [exact Hlen|].
  exact (finalizeTypes_distinct_names 3 Scenario2.typeMap Hnd Hlen).
Defined.

(** The second [LocalizedString] becomes [LocalizedString1]; the type
    used five times is not shared, for it is short and has no brace. *)
Example finalizeTypes_scenario :
  (CodeMap.finalNames <$> (snd <$> CodeMap.finalizeTypes 3 Scenario2.typeMap)) =
  Some [Some "LocalizedString"; Some "LocalizedString1"].
Proof. reflexivity. Qed.

(** ** Overlapping batches, reasons without properties, the flag as
    directory *)


(** C3, where the code departs from it. [flaky.ts] and [math.ts] change
    within one window; the timer fires at its deadline; the load of
    [flaky.ts] is rejected without a reason, the [catch] clause of
    [loadToolFile] throws on reading [e.code], and the timer callback is
    left by that exception: [math.ts], pending in the same batch, is
    not reloaded and no notification is sent. The same happens await by
    await. *)
Theorem null_reason_drops_notification :
  let worlds := fun _ : string => Scenario2.world3 in
  let p0 := {| state := @initialState Scenario.toolFn; reloadTimeout := None;
               pendingReloads := [] |} in
  let p1 := run worlds (Fulfilled tt) Scenario2.twoFiles p0 in
  let p2 := expire worlds (Fulfilled tt) 5110 p1 in
  let a := asyncRun (TimerFires 5110 :: settlements 0 worlds (Fulfilled tt) (pendingReloads p1))
             (idle p1) in
  pendingReloads p1 = ["flaky.ts"; "math.ts"] /\
  reloadTimeout p1 = Some 5110 /\
  loadModule true Scenario2.world3 "flaky.ts" = Rejected ThrownUndefined /\
  loadModule true Scenario2.world3 "math.ts" = Fulfilled Scenario.math_v1 /\
  timer_callback_rejects worlds p1 =
    Some (TypeError "Cannot read properties of undefined (reading 'code')") /\
  calls (trace (state p2)) = [CallLoadToolFile "flaky.ts"] /\
  pendingReloads p2 = [] /\
  reloadTimeout p2 = None /\
  proc a = p2 /\ batches a = [].
Proof. cbv zeta. repeat split; reflexivity. Qed.

(** C4, where the code departs from it. The load of [flaky.ts] is
    rejected without a reason. The [catch] clause of [loadToolFile]
    throws on reading [e.code] before it logs anything, so
    [loadToolFile] is rejected instead of returning; the loop of the
    batch ends there and [math.ts], next in the batch, is not loaded.
    At start-up the same exception is caught by [loadAllTools], which
    reports that no tools were found and loads nothing more. *)
Theorem null_reason_escapes_loadToolFile :
  let w := Scenario2.world3 in
  let worlds := fun _ : string => w in
  let st := @initialState Scenario.toolFn in
  let batch := loadFiles true worlds ["flaky.ts"; "math.ts"] st in
  let scan := loadAllTools true (Fulfilled ["flaky.ts"; "math.ts"]) worlds st in
  isToolFile "flaky.ts" = true /\
  loadModule true w "flaky.ts" = Rejected ThrownUndefined /\
  loadModule true w "math.ts" = Fulfilled Scenario.math_v1 /\
  loadToolFileRejects true w "flaky.ts" =
    Some (TypeError "Cannot read properties of undefined (reading 'code')") /\
  failures (trace (loadToolFile true w "flaky.ts" st)) = [] /\
  calls (trace batch) = [CallLoadToolFile "flaky.ts"] /\
  _registeredTools batch = ∅ /\
  _registeredTools (loadFiles true worlds ["math.ts"; "flaky.ts"] st) !! "math_add" =
    Some (entryOf Scenario.addTool) /\
  calls (trace scan) = [CallLoadToolFile "flaky.ts"] /\
  failures (trace scan) =
    [LogNoToolsFound "/tools"
       (TypeError "Cannot read properties of undefined (reading 'code')")] /\
  _registeredTools scan = ∅.
Proof. cbv zeta. repeat split; reflexivity. Qed.

(** C8, where the code departs from it. Started in [/cwd] as
    [mcp-loader], the loader scans and watches [/cwd/.claude/tool] and
    registers the tools of [math.ts]. Started as
    [mcp-loader --no-hot-reload], it takes the flag for the directory as
    well: it scans [/cwd/--no-hot-reload], finds nothing and registers
    no tool. Started with [MCP_NO_HOT_RELOAD=true] instead, it scans
    [/cwd/.claude/tool] and ends with the same table as with hot reload
    on. *)
Theorem flag_taken_for_the_directory :
  let worlds := fun _ : string => Scenario.diskWorld 1000 Scenario2.cwdDisk in
  let start := fun P => Scenario2.startOn P Scenario2.cwdReaddir Scenario2.cwdWatch worlds in
  let on := start Scenario2.platform_default in
  let flag := start Scenario2.platform_flag in
  let env := start Scenario2.platform_env in
  @toolDir _ Scenario2.platform_default = "/cwd/.claude/tool" /\
  @toolDir _ Scenario2.platform_env = "/cwd/.claude/tool" /\
  @toolDir _ Scenario2.platform_flag = "/cwd/--no-hot-reload" /\
  (watching on = true /\ watching flag = false /\ watching env = false) /\
  dom (_registeredTools (state (process on))) = {[ "math_add"; "math_multiply" ]} /\
  _registeredTools (state (process env)) = _registeredTools (state (process on)) /\
  _registeredTools (state (process flag)) = ∅ /\
  calls (trace (state (process on))) = [CallLoadToolFile "math.ts"] /\
  calls (trace (state (process flag))) = [] /\
  failures (trace (state (process flag))) =
    [LogNoToolsFound "/cwd/--no-hot-reload" Scenario.ENOENT].
Proof. cbv zeta. repeat split; reflexivity. Qed.
